(** * remote-commander: the HTTP client and the filesystem facade

    A shallow embedding of [http-client.ts] (class [HttpClient]) and of
    [tools/filesystem.ts] (the operation facade), with the properties the
    specification states about them.

    Modelling conventions.
    - JavaScript strings are Rocq [string]s (ASCII code units).
    - Values that travel as JSON are trees of type [json]; a JavaScript
      number is an integer [Z], rendered as JavaScript renders it when it is
      a safe integer.  A possibly-[undefined] value is an [option json].
    - An [async] function is a computation in the monad [M]: it reads the
      environment (the configuration provider and the HTTP transport),
      updates the world (the singleton client and the list of requests put
      on the wire) and either returns or throws.  The world survives a
      throw, as it does in JavaScript.
    - [console.log] / [console.error] output is not part of the model. *)

From Stdlib Require Import String Ascii List ZArith NArith Bool Lia DecimalString.
Import ListNotations.
Local Open Scope list_scope.
Local Open Scope string_scope.

Set Implicit Arguments.
Set Warnings "-register-all".

(** ** JavaScript values *)

Inductive json : Type :=
| JNull
| JBool (b : bool)
| JNum (n : Z)
| JStr (s : string)
| JArr (items : list json)
| JObj (fields : list (string * json)).

(** What a [throw] carries: an [Error] object (of any subclass) with its
    [message], or some other value. *)
Inductive exn : Type :=
| ErrorObj (message : string)
| NonError (v : json).

Inductive Result (A : Type) : Type :=
| Ok (a : A)
| Throw (e : exn).
Arguments Ok {A} a.
Arguments Throw {A} e.

(** [error instanceof Error ? error.message : 'Unknown error'] *)
Definition error_message (e : exn) : string :=
  match e with
  | ErrorObj m => m
  | NonError _ => "Unknown error"
  end.

(** [String.prototype.startsWith] with the default position. *)
Definition startsWith (s search : string) : bool := String.prefix search s.

(** Truthiness of a string: only the empty string is falsy. *)
Definition truthy_str (s : string) : bool :=
  match s with
  | EmptyString => false
  | String _ _ => true
  end.

(** Truthiness of an optional string ([undefined] is falsy). *)
Definition truthy_ostr (o : option string) : bool :=
  match o with
  | Some s => truthy_str s
  | None => false
  end.

(** [ToBoolean] on JSON values. *)
Definition truthy (v : json) : bool :=
  match v with
  | JNull => false
  | JBool b => b
  | JNum n => negb (Z.eqb n 0)
  | JStr s => truthy_str s
  | JArr _ => true
  | JObj _ => true
  end.

Definition truthy_opt (o : option json) : bool :=
  match o with
  | Some v => truthy v
  | None => false
  end.

(** [a || b] on optional strings and on possibly-undefined values. *)
Definition or_str (a : option string) (b : string) : string :=
  match a with
  | Some s => if truthy_str s then s else b
  | None => b
  end.

Definition or_opt (a b : option json) : option json :=
  if truthy_opt a then a else b.

(** Own property of a parsed JSON object; keys of an object are unique. *)
Fixpoint lookup (k : string) (fields : list (string * json)) : option json :=
  match fields with
  | [] => None
  | (k', v) :: rest => if String.eqb k k' then Some v else lookup k rest
  end.

(** [v.k] for the property names the program reads ([data], [name],
    [type], [access_token]); none of them is inherited from a prototype, so
    only objects carry them.  Reading a property of [null] is a
    [TypeError]. *)
Definition get_prop (v : json) (k : string) : Result (option json) :=
  match v with
  | JNull =>
      Throw (ErrorObj ("Cannot read properties of null (reading '" ++ k ++ "')"))
  | JObj fields => Ok (lookup k fields)
  | _ => Ok None
  end.

(** [v?.k] on a possibly-undefined value: short-circuits on [null] and
    [undefined]. *)
Definition get_prop_opt (o : option json) (k : string) : option json :=
  match o with
  | Some (JObj fields) => lookup k fields
  | _ => None
  end.

(** Decimal rendering of integers.  It is JavaScript's Number-to-string
    conversion on the safe integers (magnitude at most 2^53 - 1); larger
    magnitudes and fractions, which JavaScript writes with rounded digits
    or an exponent, are outside the model. *)
Definition string_of_N (n : N) : string := NilZero.string_of_uint (N.to_uint n).
Definition string_of_Z (z : Z) : string := NilZero.string_of_int (Z.to_int z).

(** [ToString] on JSON values whose numbers are safe integers.  An array
    joins its elements with commas
    ([null] elements render empty); a plain object renders
    ["[object Object]"], unless it has an own [toString] property, which
    parsed JSON can never make callable, so the conversion is a
    [TypeError]. *)
Definition no_primitive : exn := ErrorObj "Cannot convert object to primitive value".

Fixpoint ToString (v : json) : Result string :=
  match v with
  | JNull => Ok "null"
  | JBool true => Ok "true"
  | JBool false => Ok "false"
  | JNum n => Ok (string_of_Z n)
  | JStr s => Ok s
  | JArr items =>
      (fix join (first : bool) (l : list json) : Result string :=
         match l with
         | [] => Ok ""
         | x :: rest =>
             match (match x with JNull => Ok "" | _ => ToString x end) with
             | Throw e => Throw e
             | Ok sx =>
                 match join false rest with
                 | Throw e => Throw e
                 | Ok sr => Ok ((if first then "" else ",") ++ sx ++ sr)
                 end
             end
         end) true items
  | JObj fields =>
      match lookup "toString" fields with
      | Some _ => Throw no_primitive
      | None => Ok "[object Object]"
      end
  end.

(** Template-literal interpolation of a possibly-undefined value. *)
Definition ToString_opt (o : option json) : Result string :=
  match o with
  | None => Ok "undefined"
  | Some v => ToString v
  end.

(** [String.prototype.toUpperCase] on ASCII strings: the letters a-z are
    raised and every other ASCII character is kept.  The Unicode mappings
    of characters beyond ASCII are outside the model. *)
Definition upper_ascii (c : ascii) : ascii :=
  let n := nat_of_ascii c in
  if andb (Nat.leb 97 n) (Nat.leb n 122) then ascii_of_nat (n - 32) else c.

Fixpoint toUpperCase (s : string) : string :=
  match s with
  | EmptyString => EmptyString
  | String c rest => String (upper_ascii c) (toUpperCase rest)
  end.

(** ** The wire: requests, responses and the transport *)

Inductive Body : Type :=
| JsonBody (data : json)                       (* [JSON.stringify(data)] *)
| FormBody (params : list (string * string)).  (* [new URLSearchParams({...})] *)

Record Request : Type := {
  url : string;
  method : string;
  headers : list (string * string);
  body : Body
}.

(** A [fetch] response: [text] and [json_body] are the outcomes of
    [response.text()] and [response.json()], either of which may reject. *)
Record Response : Type := {
  status : N;
  statusText : string;
  text : Result string;
  json_body : Result json
}.

(** [response.ok]: the status is in the range 200-299. *)
Definition ok (r : Response) : bool :=
  andb (N.leb 200 (status r)) (N.leb (status r) 299).

Inductive FetchOutcome : Type :=
| Rejected (e : exn)
| Resolved (r : Response).

(** ** Configuration *)

(** Modelled from the spec: the configuration record served by
    [configManager.getConfig()] ([config-manager.js] is not part of the
    sources).  Section 6 lists its fields; every one of them may be unset. *)
Record ServerConfig : Type := {
  sc_serverUrl : option string;
  sc_authUrl : option string;
  sc_authToken : option string;
  sc_basePath : option string;
  sc_username : option string;
  sc_password : option string
}.

(** [interface HttpClientConfig].  [authToken] is declared a string, but
    [authenticate] stores whatever [access_token] the identity provider
    answered, so it is kept as a possibly-undefined value. *)
Record HttpClientConfig : Type := {
  serverUrl : string;
  authUrl : option string;
  authToken : option json;
  basePath : string;
  username : option string;
  password : option string
}.

(** [interface ApiResponse<T>] *)
Record ApiResponse : Type := {
  success : bool;
  data : option json;
  error : option string
}.

(** ** Request records *)

Module FileReadRequest.
Record t : Type := {
  path : string;
  offset : option Z;
  length : option Z;
  isUrl : option bool
}.
Definition with_path (r : t) (p : string) : t :=
  {| path := p; offset := offset r; length := length r; isUrl := isUrl r |}.
End FileReadRequest.

Inductive WriteMode : Type := rewrite_mode | append_mode.

Module FileWriteRequest.
Record t : Type := {
  path : string;
  content : string;
  mode : option WriteMode
}.
Definition with_path (r : t) (p : string) : t :=
  {| path := p; content := content r; mode := mode r |}.
End FileWriteRequest.

Module DirectoryListRequest.
Record t : Type := { path : string }.
Definition with_path (r : t) (p : string) : t := {| path := p |}.
End DirectoryListRequest.

Module FileSearchRequest.
Record t : Type := {
  path : string;
  pattern : string;
  timeoutMs : option Z
}.
Definition with_path (r : t) (p : string) : t :=
  {| path := p; pattern := pattern r; timeoutMs := timeoutMs r |}.
End FileSearchRequest.

Module CodeSearchRequest.
Record t : Type := {
  path : string;
  pattern : string;
  contextLines : option Z;
  filePattern : option string;
  ignoreCase : option bool;
  includeHidden : option bool;
  maxResults : option Z;
  timeoutMs : option Z
}.
Definition with_path (r : t) (p : string) : t :=
  {| path := p; pattern := pattern r; contextLines := contextLines r;
     filePattern := filePattern r; ignoreCase := ignoreCase r;
     includeHidden := includeHidden r; maxResults := maxResults r;
     timeoutMs := timeoutMs r |}.
End CodeSearchRequest.

Module CreateDirectoryRequest.
Record t : Type := { path : string }.
Definition with_path (r : t) (p : string) : t := {| path := p |}.
End CreateDirectoryRequest.

Module GetFileInfoRequest.
Record t : Type := { path : string }.
Definition with_path (r : t) (p : string) : t := {| path := p |}.
End GetFileInfoRequest.

Module EditBlockRequest.
Record t : Type := {
  file_path : string;
  old_string : string;
  new_string : string;
  expected_replacements : option Z
}.
Definition with_file_path (r : t) (p : string) : t :=
  {| file_path := p; old_string := old_string r; new_string := new_string r;
     expected_replacements := expected_replacements r |}.
End EditBlockRequest.

(** The JSON object a request record is; an [undefined] optional field has
    no entry, which is also how [JSON.stringify] writes it. *)
Definition field {A : Type} (k : string) (inj : A -> json) (o : option A)
  : list (string * json) :=
  match o with
  | Some a => [(k, inj a)]
  | None => []
  end.

Definition json_of_mode (m : WriteMode) : json :=
  match m with
  | rewrite_mode => JStr "rewrite"
  | append_mode => JStr "append"
  end.

Definition json_of_FileReadRequest (r : FileReadRequest.t) : json :=
  JObj ([("path", JStr (FileReadRequest.path r))]
        ++ field "offset" JNum (FileReadRequest.offset r)
        ++ field "length" JNum (FileReadRequest.length r)
        ++ field "isUrl" JBool (FileReadRequest.isUrl r))%list.

Definition json_of_FileWriteRequest (r : FileWriteRequest.t) : json :=
  JObj ([("path", JStr (FileWriteRequest.path r));
         ("content", JStr (FileWriteRequest.content r))]
        ++ field "mode" json_of_mode (FileWriteRequest.mode r))%list.

Definition json_of_DirectoryListRequest (r : DirectoryListRequest.t) : json :=
  JObj [("path", JStr (DirectoryListRequest.path r))].

Definition json_of_FileSearchRequest (r : FileSearchRequest.t) : json :=
  JObj ([("path", JStr (FileSearchRequest.path r));
         ("pattern", JStr (FileSearchRequest.pattern r))]
        ++ field "timeoutMs" JNum (FileSearchRequest.timeoutMs r))%list.

Definition json_of_CodeSearchRequest (r : CodeSearchRequest.t) : json :=
  JObj ([("path", JStr (CodeSearchRequest.path r));
         ("pattern", JStr (CodeSearchRequest.pattern r))]
        ++ field "contextLines" JNum (CodeSearchRequest.contextLines r)
        ++ field "filePattern" JStr (CodeSearchRequest.filePattern r)
        ++ field "ignoreCase" JBool (CodeSearchRequest.ignoreCase r)
        ++ field "includeHidden" JBool (CodeSearchRequest.includeHidden r)
        ++ field "maxResults" JNum (CodeSearchRequest.maxResults r)
        ++ field "timeoutMs" JNum (CodeSearchRequest.timeoutMs r))%list.

Definition json_of_CreateDirectoryRequest (r : CreateDirectoryRequest.t) : json :=
  JObj [("path", JStr (CreateDirectoryRequest.path r))].

Definition json_of_GetFileInfoRequest (r : GetFileInfoRequest.t) : json :=
  JObj [("path", JStr (GetFileInfoRequest.path r))].

Definition json_of_EditBlockRequest (r : EditBlockRequest.t) : json :=
  JObj ([("file_path", JStr (EditBlockRequest.file_path r));
         ("old_string", JStr (EditBlockRequest.old_string r));
         ("new_string", JStr (EditBlockRequest.new_string r))]
        ++ field "expected_replacements" JNum
             (EditBlockRequest.expected_replacements r))%list.

(** ** The world and the monad of asynchronous computations *)

(** The singleton [httpClient] (its private [config] field) and the
    requests handed to [fetch] so far, oldest first. *)
Record World : Type := {
  config : option HttpClientConfig;
  wire : list Request
}.

(** The collaborators.  The transport answers a request knowing what was
    sent before it, so a server with state is covered.

    Modelled from the spec: [getConfig] stands for
    [configManager.getConfig()], an injected settings source that serves
    the same configuration every time it is asked. *)
Record Env : Type := {
  getConfig : ServerConfig;
  transport : list Request -> Request -> FetchOutcome
}.

Definition M (A : Type) : Type := Env -> World -> Result A * World.

Definition ret {A : Type} (a : A) : M A := fun _ w => (Ok a, w).

Definition bind {A B : Type} (m : M A) (k : A -> M B) : M B :=
  fun env w =>
    match m env w with
    | (Ok a, w') => k a env w'
    | (Throw e, w') => (Throw e, w')
    end.

Definition throw {A : Type} (e : exn) : M A := fun _ w => (Throw e, w).

(** [try { m } catch (error) { handler error }] *)
Definition try_catch {A : Type} (m : M A) (handler : exn -> M A) : M A :=
  fun env w =>
    match m env w with
    | (Ok a, w') => (Ok a, w')
    | (Throw e, w') => handler e env w'
    end.

(** A synchronous step that may throw. *)
Definition lift {A : Type} (r : Result A) : M A := fun _ w => (r, w).

Declare Scope async_scope.
Delimit Scope async_scope with async.
Notation "x <- m ;; k" := (bind m (fun x => k))
  (at level 61, m at next level, right associativity) : async_scope.
Notation "m ;; k" := (bind m (fun _ => k))
  (at level 61, right associativity) : async_scope.
Local Open Scope async_scope.

(** [this.config] *)
Definition this_config : M (option HttpClientConfig) :=
  fun _ w => (Ok (config w), w).

(** [this.config = c] *)
Definition set_config (c : HttpClientConfig) : M unit :=
  fun _ w => (Ok tt, {| config := Some c; wire := wire w |}).

(** [this.config.authToken = tok], [this.config] being non-null. *)
Definition set_authToken (tok : option json) : M unit :=
  fun _ w =>
    match config w with
    | Some c =>
        (Ok tt,
         {| config := Some {| serverUrl := serverUrl c; authUrl := authUrl c;
                              authToken := tok; basePath := basePath c;
                              username := username c; password := password c |};
            wire := wire w |})
    | None => (Throw (ErrorObj "Cannot set properties of null (setting 'authToken')"), w)
    end.

(** [await configManager.getConfig()] *)
Definition configManager_getConfig : M ServerConfig :=
  fun env w => (Ok (getConfig env), w).

(** [await fetch(url, init)]: the request goes on the wire and the
    transport decides what comes back. *)
Definition fetch (req : Request) : M Response :=
  fun env w =>
    let w' := {| config := config w; wire := (wire w ++ [req])%list |} in
    match transport env (wire w) req with
    | Rejected e => (Throw e, w')
    | Resolved r => (Ok r, w')
    end.

(** ** http-client.ts: class HttpClient *)

Module HttpClient.

Definition not_initialized : exn := ErrorObj "HTTP client not initialized".

Definition token_path : string := "/realms/LIT/protocol/openid-connect/token".

(** [private async authenticate()] *)
Definition authenticate : M unit :=
  cfg <- this_config ;;
  match cfg with
  | Some {| username := Some user; password := Some pass |} =>
      if andb (truthy_str user) (truthy_str pass) then
        try_catch
          (serverConfig <- configManager_getConfig ;;
           let authUrl := or_str (sc_authUrl serverConfig) "http://localhost:8080" in
           let tokenUrl := authUrl ++ token_path in
           response <- fetch {| url := tokenUrl;
                                method := "POST";
                                headers := [("Content-Type",
                                             "application/x-www-form-urlencoded")];
                                body := FormBody [("grant_type", "password");
                                                  ("client_id", "lit-app");
                                                  ("username", user);
                                                  ("password", pass)] |} ;;
           if negb (ok response) then
             errorText <- lift (text response) ;;
             throw (ErrorObj ("Keycloak authentication failed: "
                              ++ string_of_N (status response) ++ " "
                              ++ statusText response ++ " - " ++ errorText))
           else
             tokenData <- lift (json_body response) ;;
             access_token <- lift (get_prop tokenData "access_token") ;;
             set_authToken access_token)
          (fun error =>
             throw (ErrorObj ("Authentication failed: " ++ error_message error)))
      else throw (ErrorObj "Username and password required for authentication")
  | _ => throw (ErrorObj "Username and password required for authentication")
  end.

Definition incomplete : exn :=
  ErrorObj "HTTP client configuration incomplete. Please set serverUrl and basePath in config.".

(** [async init()] *)
Definition init : M unit :=
  serverConfig <- configManager_getConfig ;;
  match sc_serverUrl serverConfig, sc_basePath serverConfig with
  | Some server, Some base =>
      if orb (negb (truthy_str server)) (negb (truthy_str base)) then
        throw incomplete
      else
        let token := or_str (sc_authToken serverConfig) "" in
        set_config {| serverUrl := server;
                      authUrl := sc_authUrl serverConfig;
                      authToken := Some (JStr token);
                      basePath := base;
                      username := sc_username serverConfig;
                      password := sc_password serverConfig |} ;;
        if andb (andb (negb (truthy_str token))
                      (truthy_ostr (sc_username serverConfig)))
                (truthy_ostr (sc_password serverConfig))
        then authenticate
        else ret tt
  | _, _ => throw incomplete
  end.

(** [private validatePath(requestPath)] *)
Definition validatePath (requestPath : string) : M string :=
  cfg <- this_config ;;
  match cfg with
  | None => throw not_initialized
  | Some c =>
      if negb (startsWith requestPath (basePath c)) then
        ret (basePath c ++ (if startsWith requestPath "/" then "" else "/")
                        ++ requestPath)
      else ret requestPath
  end.

(** [private async makeRequest<T>(endpoint, data)] *)
Definition makeRequest (endpoint : string) (data : json) : M ApiResponse :=
  cfg <- this_config ;;
  match cfg with
  | None => throw not_initialized
  | Some c =>
      let url := serverUrl c ++ "/api/commander/" ++ endpoint in
      try_catch
        (bearer <- lift (ToString_opt (authToken c)) ;;
         response <- fetch {| url := url;
                              method := "POST";
                              headers := [("Content-Type", "application/json");
                                          ("Authorization", "Bearer " ++ bearer)];
                              body := JsonBody data |} ;;
         if negb (ok response) then
           ret {| success := false;
                  data := None;
                  error := Some ("HTTP " ++ string_of_N (status response) ++ ": "
                                 ++ statusText response) |}
         else
           result <- lift (json_body response) ;;
           ret {| success := true; data := Some result; error := None |})
        (fun error =>
           ret {| success := false;
                  data := None;
                  error := Some ("Network error: " ++ error_message error) |})
  end.

(** [async readFile(request)] *)
Definition readFile (request : FileReadRequest.t) : M ApiResponse :=
  validatedPath <- validatePath (FileReadRequest.path request) ;;
  response <- makeRequest "read_file"
                (json_of_FileReadRequest
                   (FileReadRequest.with_path request validatedPath)) ;;
  if negb (success response) then ret response
  else
    (* response.data?.data || response.data *)
    let content := or_opt (get_prop_opt (data response) "data") (data response) in
    ret {| success := true; data := content; error := None |}.

(** [async writeFile(request)] *)
Definition writeFile (request : FileWriteRequest.t) : M ApiResponse :=
  validatedPath <- validatePath (FileWriteRequest.path request) ;;
  makeRequest "write_file"
    (json_of_FileWriteRequest (FileWriteRequest.with_path request validatedPath)).

(** The callback of [items.map] in [listDirectory]. *)
Definition item_name (item : json) : Result string :=
  match item with
  | JStr s => Ok s
  | _ =>
      match get_prop item "name" with
      | Throw e => Throw e
      | Ok name =>
          if truthy_opt name then
            match get_prop item "type" with
            | Throw e => Throw e
            | Ok type =>
                (* item.type?.toUpperCase() || 'FILE' *)
                match
                  match type with
                  | None => Ok "FILE"
                  | Some JNull => Ok "FILE"
                  | Some (JStr t) =>
                      Ok (if truthy_str (toUpperCase t) then toUpperCase t else "FILE")
                  | Some _ =>
                      Throw (ErrorObj "item.type?.toUpperCase is not a function")
                  end
                with
                | Throw e => Throw e
                | Ok tag =>
                    match ToString_opt name with
                    | Throw e => Throw e
                    | Ok n => Ok ("[" ++ tag ++ "] " ++ n)
                    end
                end
            end
          else ToString item
      end
  end.

(** [Array.prototype.map] with a callback that may throw. *)
Fixpoint map_items (f : json -> Result string) (items : list json)
  : Result (list string) :=
  match items with
  | [] => Ok []
  | item :: rest =>
      match f item with
      | Throw e => Throw e
      | Ok s =>
          match map_items f rest with
          | Throw e => Throw e
          | Ok ss => Ok (s :: ss)
          end
      end
  end.

(** [async listDirectory(request)] *)
Definition listDirectory (request : DirectoryListRequest.t) : M ApiResponse :=
  validatedPath <- validatePath (DirectoryListRequest.path request) ;;
  response <- makeRequest "list_directory"
                (json_of_DirectoryListRequest
                   (DirectoryListRequest.with_path request validatedPath)) ;;
  if negb (success response) then ret response
  else
    (* response.data?.data || response.data || [] *)
    let items := or_opt (or_opt (get_prop_opt (data response) "data") (data response))
                        (Some (JArr [])) in
    match items with
    | Some (JArr entries) =>
        itemNames <- lift (map_items item_name entries) ;;
        ret {| success := true;
               data := Some (JArr (map JStr itemNames));
               error := None |}
    | _ => throw (ErrorObj "items.map is not a function")
    end.

(** [async searchFiles(request)] *)
Definition searchFiles (request : FileSearchRequest.t) : M ApiResponse :=
  validatedPath <- validatePath (FileSearchRequest.path request) ;;
  makeRequest "search_files"
    (json_of_FileSearchRequest (FileSearchRequest.with_path request validatedPath)).

(** [async searchCode(request)] *)
Definition searchCode (request : CodeSearchRequest.t) : M ApiResponse :=
  validatedPath <- validatePath (CodeSearchRequest.path request) ;;
  makeRequest "search_code"
    (json_of_CodeSearchRequest (CodeSearchRequest.with_path request validatedPath)).

(** [async createDirectory(request)] *)
Definition createDirectory (request : CreateDirectoryRequest.t) : M ApiResponse :=
  validatedPath <- validatePath (CreateDirectoryRequest.path request) ;;
  makeRequest "create_directory"
    (json_of_CreateDirectoryRequest
       (CreateDirectoryRequest.with_path request validatedPath)).

(** [async getFileInfo(request)] *)
Definition getFileInfo (request : GetFileInfoRequest.t) : M ApiResponse :=
  validatedPath <- validatePath (GetFileInfoRequest.path request) ;;
  makeRequest "get_file_info"
    (json_of_GetFileInfoRequest (GetFileInfoRequest.with_path request validatedPath)).

(** [async editBlock(request)] *)
Definition editBlock (request : EditBlockRequest.t) : M ApiResponse :=
  validatedPath <- validatePath (EditBlockRequest.file_path request) ;;
  makeRequest "edit_block"
    (json_of_EditBlockRequest
       (EditBlockRequest.with_file_path request validatedPath)).

End HttpClient.

(** ** tools/filesystem.ts: the operation facade *)

Module Filesystem.

(** [interface FileResult]; [content] is whatever the client unwrapped. *)
Record FileResult : Type := {
  content : json;
  mimeType : string;
  isImage : bool
}.

(** [interface MultiFileResult] *)
Record MultiFileResult : Type := {
  mf_path : string;
  mf_content : option json;
  mf_mimeType : option string;
  mf_isImage : option bool;
  mf_error : option string
}.

(** [response.data || fallback] *)
Definition data_or (r : ApiResponse) (fallback : json) : json :=
  match data r with
  | Some v => if truthy v then v else fallback
  | None => fallback
  end.

(** [throw new Error(response.error || fallback)] *)
Definition fail {A : Type} (r : ApiResponse) (fallback : string) : M A :=
  throw (ErrorObj (or_str (error r) fallback)).

(** [export async function validatePath(inputPath)] *)
Definition validatePath (inputPath : string) : M string := ret inputPath.

(** [export async function readFileFromUrl(url, timeout = 30000)] *)
Definition readFileFromUrl (url : string) (timeout : Z) : M FileResult :=
  throw (ErrorObj
    "URL reading not implemented in remote commander. Please use local paths only.").

(** [export async function readFileFromDisk(filePath, offset = 0, length = 1000)] *)
Definition readFileFromDisk (filePath : string) (offset length : Z) : M FileResult :=
  HttpClient.init ;;
  response <- HttpClient.readFile
                {| FileReadRequest.path := filePath;
                   FileReadRequest.offset := Some offset;
                   FileReadRequest.length := Some length;
                   FileReadRequest.isUrl := None |} ;;
  if negb (success response) then fail response "Failed to read file"
  else ret {| content := data_or response (JStr "");
              mimeType := "text/plain";
              isImage := false |}.

(** [export async function readFile(path, isUrl = false, offset = 0, length = 1000)] *)
Definition readFile (path : string) (isUrl : bool) (offset length : Z) : M FileResult :=
  if isUrl then readFileFromUrl path 30000
  else readFileFromDisk path offset length.

(** [export async function readFileInternal(filePath, offset = 0, length = 1000)] *)
Definition readFileInternal (filePath : string) (offset length : Z) : M json :=
  result <- readFile filePath false offset length ;;
  ret (content result).

(** [export async function writeFile(path, content, mode = 'rewrite')] *)
Definition writeFile (path content : string) (mode : WriteMode) : M unit :=
  HttpClient.init ;;
  response <- HttpClient.writeFile
                {| FileWriteRequest.path := path;
                   FileWriteRequest.content := content;
                   FileWriteRequest.mode := Some mode |} ;;
  if negb (success response) then fail response "Failed to write file"
  else ret tt.

(** One turn of the loop of [readMultipleFiles]: the [try]/[catch] around
    [readFile(filePath)], all other parameters at their defaults. *)
Definition read_one (filePath : string) : M MultiFileResult :=
  try_catch
    (fileResult <- readFile filePath false 0 1000 ;;
     ret {| mf_path := filePath;
            mf_content := Some (content fileResult);
            mf_mimeType := Some (mimeType fileResult);
            mf_isImage := Some (isImage fileResult);
            mf_error := None |})
    (fun error =>
       ret {| mf_path := filePath;
              mf_content := None;
              mf_mimeType := None;
              mf_isImage := None;
              mf_error := Some (error_message error) |}).

(** [for (const filePath of paths) { ... results.push(...) }] *)
Fixpoint read_loop (paths : list string) (results : list MultiFileResult)
  : M (list MultiFileResult) :=
  match paths with
  | [] => ret results
  | filePath :: rest =>
      entry <- read_one filePath ;;
      read_loop rest (results ++ [entry])%list
  end.

(** [export async function readMultipleFiles(paths)] *)
Definition readMultipleFiles (paths : list string) : M (list MultiFileResult) :=
  read_loop paths [].

(** [export async function createDirectory(path)] *)
Definition createDirectory (path : string) : M unit :=
  HttpClient.init ;;
  response <- HttpClient.createDirectory {| CreateDirectoryRequest.path := path |} ;;
  if negb (success response) then fail response "Failed to create directory"
  else ret tt.

(** [export async function listDirectory(path)] *)
Definition listDirectory (path : string) : M json :=
  HttpClient.init ;;
  response <- HttpClient.listDirectory {| DirectoryListRequest.path := path |} ;;
  if negb (success response) then fail response "Failed to list directory"
  else ret (data_or response (JArr [])).

(** [export async function moveFile(source, destination)] *)
Definition moveFile (source destination : string) : M unit :=
  throw (ErrorObj "Move file not yet implemented in remote commander").

(** [export async function searchFiles(path, pattern, timeoutMs = 30000)] *)
Definition searchFiles (path pattern : string) (timeoutMs : Z) : M json :=
  HttpClient.init ;;
  response <- HttpClient.searchFiles
                {| FileSearchRequest.path := path;
                   FileSearchRequest.pattern := pattern;
                   FileSearchRequest.timeoutMs := Some timeoutMs |} ;;
  if negb (success response) then fail response "Failed to search files"
  else ret (data_or response (JArr [])).

(** [export async function getFileInfo(path)] *)
Definition getFileInfo (path : string) : M (option json) :=
  HttpClient.init ;;
  response <- HttpClient.getFileInfo {| GetFileInfoRequest.path := path |} ;;
  if negb (success response) then fail response "Failed to get file info"
  else ret (data response).

(** The [options] argument of [searchCode]. *)
Record SearchOptions : Type := {
  contextLines : option Z;
  filePattern : option string;
  ignoreCase : option bool;
  includeHidden : option bool;
  maxResults : option Z;
  timeoutMs : option Z
}.

(** [export async function searchCode(path, pattern, options = {})] *)
Definition searchCode (path pattern : string) (options : SearchOptions)
  : M (option json) :=
  HttpClient.init ;;
  response <- HttpClient.searchCode
                {| CodeSearchRequest.path := path;
                   CodeSearchRequest.pattern := pattern;
                   CodeSearchRequest.contextLines := contextLines options;
                   CodeSearchRequest.filePattern := filePattern options;
                   CodeSearchRequest.ignoreCase := ignoreCase options;
                   CodeSearchRequest.includeHidden := includeHidden options;
                   CodeSearchRequest.maxResults := maxResults options;
                   CodeSearchRequest.timeoutMs := timeoutMs options |} ;;
  if negb (success response) then fail response "Failed to search code"
  else ret (data response).

(** [export async function editBlock(filePath, oldString, newString,
    expectedReplacements = 1)] *)
Definition editBlock (filePath oldString newString : string)
           (expectedReplacements : Z) : M (option json) :=
  HttpClient.init ;;
  response <- HttpClient.editBlock
                {| EditBlockRequest.file_path := filePath;
                   EditBlockRequest.old_string := oldString;
                   EditBlockRequest.new_string := newString;
                   EditBlockRequest.expected_replacements :=
                     Some expectedReplacements |} ;;
  if negb (success response) then fail response "Failed to edit block"
  else ret (data response).

End Filesystem.

Unset Implicit Arguments.

(** ** Observations on a run *)

(** The value a computation produced and the world it left. *)
Definition outcome {A : Type} (m : M A) (env : Env) (w : World) : Result A :=
  fst (m env w).
Definition after {A : Type} (m : M A) (env : Env) (w : World) : World :=
  snd (m env w).

(** The string found under [key] in the JSON body of a request. *)
Definition transmitted_path (key : string) (req : Request) : option string :=
  match body req with
  | JsonBody (JObj fields) =>
      match lookup key fields with
      | Some (JStr s) => Some s
      | _ => None
      end
  | _ => None
  end.

(** The token POST of [authenticate] is the only form-encoded request. *)
Definition is_auth (req : Request) : bool :=
  match body req with
  | FormBody _ => true
  | JsonBody _ => false
  end.


(** The request [makeRequest] builds. *)
Definition api_request (c : HttpClientConfig) (bearer endpoint : string) (data : json)
  : Request :=
  {| url := serverUrl c ++ "/api/commander/" ++ endpoint;
     method := "POST";
     headers := [("Content-Type", "application/json");
                 ("Authorization", "Bearer " ++ bearer)];
     body := JsonBody data |}.

(** The eight operations the client exposes, as one type. *)
Inductive Operation : Type :=
| OpReadFile (r : FileReadRequest.t)
| OpWriteFile (r : FileWriteRequest.t)
| OpListDirectory (r : DirectoryListRequest.t)
| OpSearchFiles (r : FileSearchRequest.t)
| OpSearchCode (r : CodeSearchRequest.t)
| OpCreateDirectory (r : CreateDirectoryRequest.t)
| OpGetFileInfo (r : GetFileInfoRequest.t)
| OpEditBlock (r : EditBlockRequest.t).

Definition perform (op : Operation) : M ApiResponse :=
  match op with
  | OpReadFile r => HttpClient.readFile r
  | OpWriteFile r => HttpClient.writeFile r
  | OpListDirectory r => HttpClient.listDirectory r
  | OpSearchFiles r => HttpClient.searchFiles r
  | OpSearchCode r => HttpClient.searchCode r
  | OpCreateDirectory r => HttpClient.createDirectory r
  | OpGetFileInfo r => HttpClient.getFileInfo r
  | OpEditBlock r => HttpClient.editBlock r
  end.

(** The path the caller handed in, and the name of the field carrying it. *)
Definition input_path (op : Operation) : string :=
  match op with
  | OpReadFile r => FileReadRequest.path r
  | OpWriteFile r => FileWriteRequest.path r
  | OpListDirectory r => DirectoryListRequest.path r
  | OpSearchFiles r => FileSearchRequest.path r
  | OpSearchCode r => CodeSearchRequest.path r
  | OpCreateDirectory r => CreateDirectoryRequest.path r
  | OpGetFileInfo r => GetFileInfoRequest.path r
  | OpEditBlock r => EditBlockRequest.file_path r
  end.

Definition path_key (op : Operation) : string :=
  match op with
  | OpEditBlock _ => "file_path"
  | _ => "path"
  end.

(** The token POST of [authenticate]. *)
Definition token_request (sc : ServerConfig) (user pass : string) : Request :=
  {| url := or_str (sc_authUrl sc) "http://localhost:8080" ++ HttpClient.token_path;
     method := "POST";
     headers := [("Content-Type", "application/x-www-form-urlencoded")];
     body := FormBody [("grant_type", "password");
                       ("client_id", "lit-app");
                       ("username", user);
                       ("password", pass)] |}.

(** A complete configuration without a usable token and with credentials:
    the case in which [init] logs in. *)
Record needs_login (sc : ServerConfig) (server base user pass : string) : Prop := {
  nl_server : sc_serverUrl sc = Some server;
  nl_server_set : truthy_str server = true;
  nl_base : sc_basePath sc = Some base;
  nl_base_set : truthy_str base = true;
  nl_token : truthy_ostr (sc_authToken sc) = false;
  nl_user : sc_username sc = Some user;
  nl_user_set : truthy_str user = true;
  nl_pass : sc_password sc = Some pass;
  nl_pass_set : truthy_str pass = true
}.

(** The facade functions that reach the server, as one type, and a caller
    that invokes one of them and drops the result. *)
Inductive Call : Type :=
| CallReadFile (path : string) (offset length : Z)
| CallWriteFile (path content : string) (mode : WriteMode)
| CallCreateDirectory (path : string)
| CallListDirectory (path : string)
| CallSearchFiles (path pattern : string) (timeoutMs : Z)
| CallGetFileInfo (path : string)
| CallSearchCode (path pattern : string) (options : Filesystem.SearchOptions)
| CallEditBlock (filePath oldString newString : string) (expectedReplacements : Z).

Definition invoke (call : Call) : M unit :=
  match call with
  | CallReadFile p o l => (Filesystem.readFileFromDisk p o l ;; ret tt)
  | CallWriteFile p c m => Filesystem.writeFile p c m
  | CallCreateDirectory p => Filesystem.createDirectory p
  | CallListDirectory p => (Filesystem.listDirectory p ;; ret tt)
  | CallSearchFiles p pat t => (Filesystem.searchFiles p pat t ;; ret tt)
  | CallGetFileInfo p => (Filesystem.getFileInfo p ;; ret tt)
  | CallSearchCode p pat o => (Filesystem.searchCode p pat o ;; ret tt)
  | CallEditBlock p o n e => (Filesystem.editBlock p o n e ;; ret tt)
  end.


(** The property of a request on the wire that C1 is about. *)
Definition carries_normalized (c : HttpClientConfig) (op : Operation) (req : Request)
  : Prop :=
  let p := input_path op in
  exists p',
    transmitted_path (path_key op) req = Some p' /\
    startsWith p' (basePath c) = true /\
    (startsWith p (basePath c) = true -> p' = p) /\
    (startsWith p (basePath c) = false ->
       p' = basePath c ++ (if startsWith p "/" then "" else "/") ++ p).

(** ** The three envelopes of section 4.1, as the specification words them *)

Definition http_failure (r : Response) : ApiResponse :=
  {| success := false;
     data := None;
     error := Some ("HTTP " ++ string_of_N (status r) ++ ": " ++ statusText r) |}.

Definition network_failure (e : exn) : ApiResponse :=
  {| success := false;
     data := None;
     error := Some ("Network error: " ++ error_message e) |}.

Definition success_with (v : json) : ApiResponse :=
  {| success := true; data := Some v; error := None |}.

(** The envelope for what came back from the wire. *)
Definition classify (o : FetchOutcome) : ApiResponse :=
  match o with
  | Rejected e => network_failure e
  | Resolved r =>
      if ok r then
        match json_body r with
        | Ok v => success_with v
        | Throw e => network_failure e
        end
      else http_failure r
  end.

(** The world once [req] has been sent. *)
Definition sent (w : World) (req : Request) : World :=
  {| config := config w; wire := (wire w ++ [req])%list |}.

(** The normalised form of a path under a base path, without the client
    around it. *)
Definition normalize (base p : string) : string :=
  if startsWith p base then p
  else base ++ (if startsWith p "/" then "" else "/") ++ p.

(** ** Listings and batches, as the specification words them *)

(** A string of ASCII characters only; on such a string
    [String.prototype.toUpperCase] changes the letters a-z and nothing
    else, which is what [toUpperCase] does. *)
Fixpoint ascii_only (s : string) : bool :=
  match s with
  | EmptyString => true
  | String ch rest => andb (Nat.ltb (nat_of_ascii ch) 128) (ascii_only rest)
  end.

(** A safe integer: of magnitude at most 2^53 - 1.  Such a number is
    written by Number-to-string conversion as its decimal digits, which is
    what [string_of_Z] gives. *)
Definition safe_integer (n : Z) : bool :=
  andb (Z.leb (-9007199254740991) n) (Z.leb n 9007199254740991).

(** A value in which every number, at any depth of arrays, is a safe
    integer; on such a value [ToString] is JavaScript's string conversion. *)
Fixpoint safe_numbers (v : json) : bool :=
  match v with
  | JNum n => safe_integer n
  | JArr items =>
      (fix all (l : list json) : bool :=
         match l with
         | [] => true
         | x :: rest => andb (safe_numbers x) (all rest)
         end) items
  | _ => true
  end.



(** Reading [paths] one after the other from world [w]: each path is read
    in the world the previous read left, and gives one entry, with the
    content when [readFile] returned and with the error message when it
    threw. *)
Inductive Reads (env : Env)
  : World -> list string -> list Filesystem.MultiFileResult -> World -> Prop :=
| Reads_done w :
    Reads env w [] [] w
| Reads_content w filePath rest fileResult w1 results w2 :
    Filesystem.readFile filePath false 0 1000 env w = (Ok fileResult, w1) ->
    Reads env w1 rest results w2 ->
    Reads env w (filePath :: rest)
      ({| Filesystem.mf_path := filePath;
          Filesystem.mf_content := Some (Filesystem.content fileResult);
          Filesystem.mf_mimeType := Some (Filesystem.mimeType fileResult);
          Filesystem.mf_isImage := Some (Filesystem.isImage fileResult);
          Filesystem.mf_error := None |} :: results) w2
| Reads_error w filePath rest e w1 results w2 :
    Filesystem.readFile filePath false 0 1000 env w = (Throw e, w1) ->
    Reads env w1 rest results w2 ->
    Reads env w (filePath :: rest)
      ({| Filesystem.mf_path := filePath;
          Filesystem.mf_content := None;
          Filesystem.mf_mimeType := None;
          Filesystem.mf_isImage := None;
          Filesystem.mf_error := Some (error_message e) |} :: results) w2.

(** An entry holds a content and no error, or an error and no content. *)
Definition content_xor_error (entry : Filesystem.MultiFileResult) : Prop :=
  (Filesystem.mf_content entry <> None /\ Filesystem.mf_error entry = None) \/
  (Filesystem.mf_content entry = None /\ Filesystem.mf_error entry <> None).

(** ** Fixtures *)

Definition fresh : World := {| config := None; wire := [] |}.

Definition json_response (v : json) : Response :=
  {| status := 200; statusText := "OK"; text := Ok ""; json_body := Ok v |}.

Definition not_found : Response :=
  {| status := 404; statusText := "Not Found";
     text := Ok "Not Found"; json_body := Throw (ErrorObj "Unexpected token N in JSON") |}.

Definition garbled : Response :=
  {| status := 200; statusText := "OK"; text := Ok "<html>";
     json_body := Throw (ErrorObj "Unexpected token < in JSON at position 0") |}.

(** A configuration carrying a ready-made token. *)
Definition token_config : ServerConfig :=
  {| sc_serverUrl := Some "http://srv";
     sc_authUrl := None;
     sc_authToken := Some "tok";
     sc_basePath := Some "/base";
     sc_username := None;
     sc_password := None |}.

(** A configuration with credentials and no token. *)
Definition password_config : ServerConfig :=
  {| sc_serverUrl := Some "http://srv";
     sc_authUrl := Some "http://kc";
     sc_authToken := None;
     sc_basePath := Some "/base";
     sc_username := Some "alice";
     sc_password := Some "secret" |}.

(** A configuration whose [serverUrl] is present but empty. *)
Definition empty_url_config : ServerConfig :=
  {| sc_serverUrl := Some "";
     sc_authUrl := None;
     sc_authToken := Some "tok";
     sc_basePath := Some "/base";
     sc_username := None;
     sc_password := None |}.

(** The client as [init] leaves it under [token_config]. *)
Definition base_client : HttpClientConfig :=
  {| serverUrl := "http://srv";
     authUrl := None;
     authToken := Some (JStr "tok");
     basePath := "/base";
     username := None;
     password := None |}.

Definition ready : World := {| config := Some base_client; wire := [] |}.

(** A server that answers every API request with the same response, and
    the token endpoint with a token. *)
Definition answering (r : FetchOutcome) (_ : list Request) (req : Request)
  : FetchOutcome :=
  if is_auth req
  then Resolved (json_response (JObj [("access_token", JStr "jwt")]))
  else r.

Definition env_with (sc : ServerConfig) (r : FetchOutcome) : Env :=
  {| getConfig := sc; transport := answering r |}.

(** A server holding [/base/a] and nothing else. *)
Definition one_file_server (_ : list Request) (req : Request) : FetchOutcome :=
  match transmitted_path "path" req with
  | Some "/base/a" => Resolved (json_response (JObj [("data", JStr "hello")]))
  | _ => Resolved not_found
  end.

Definition one_file_env : Env :=
  {| getConfig := token_config; transport := one_file_server |}.

(** ** Further observations *)

(** The client operation behind each facade function. *)
Definition op_of_call (call : Call) : Operation :=
  match call with
  | CallReadFile p o l =>
      OpReadFile {| FileReadRequest.path := p;
                    FileReadRequest.offset := Some o;
                    FileReadRequest.length := Some l;
                    FileReadRequest.isUrl := None |}
  | CallWriteFile p c m =>
      OpWriteFile {| FileWriteRequest.path := p;
                     FileWriteRequest.content := c;
                     FileWriteRequest.mode := Some m |}
  | CallCreateDirectory p => OpCreateDirectory {| CreateDirectoryRequest.path := p |}
  | CallListDirectory p => OpListDirectory {| DirectoryListRequest.path := p |}
  | CallSearchFiles p pat t =>
      OpSearchFiles {| FileSearchRequest.path := p;
                       FileSearchRequest.pattern := pat;
                       FileSearchRequest.timeoutMs := Some t |}
  | CallGetFileInfo p => OpGetFileInfo {| GetFileInfoRequest.path := p |}
  | CallSearchCode p pat o =>
      OpSearchCode
        {| CodeSearchRequest.path := p;
           CodeSearchRequest.pattern := pat;
           CodeSearchRequest.contextLines := Filesystem.contextLines o;
           CodeSearchRequest.filePattern := Filesystem.filePattern o;
           CodeSearchRequest.ignoreCase := Filesystem.ignoreCase o;
           CodeSearchRequest.includeHidden := Filesystem.includeHidden o;
           CodeSearchRequest.maxResults := Filesystem.maxResults o;
           CodeSearchRequest.timeoutMs := Filesystem.timeoutMs o |}
  | CallEditBlock p o n e =>
      OpEditBlock {| EditBlockRequest.file_path := p;
                     EditBlockRequest.old_string := o;
                     EditBlockRequest.new_string := n;
                     EditBlockRequest.expected_replacements := Some e |}
  end.

(** The endpoint an operation posts to. *)
Definition endpoint_name (op : Operation) : string :=
  match op with
  | OpReadFile _ => "read_file"
  | OpWriteFile _ => "write_file"
  | OpListDirectory _ => "list_directory"
  | OpSearchFiles _ => "search_files"
  | OpSearchCode _ => "search_code"
  | OpCreateDirectory _ => "create_directory"
  | OpGetFileInfo _ => "get_file_info"
  | OpEditBlock _ => "edit_block"
  end.

(** The request record of an operation as the caller built it. *)
Definition request_json (op : Operation) : json :=
  match op with
  | OpReadFile r => json_of_FileReadRequest r
  | OpWriteFile r => json_of_FileWriteRequest r
  | OpListDirectory r => json_of_DirectoryListRequest r
  | OpSearchFiles r => json_of_FileSearchRequest r
  | OpSearchCode r => json_of_CodeSearchRequest r
  | OpCreateDirectory r => json_of_CreateDirectoryRequest r
  | OpGetFileInfo r => json_of_GetFileInfoRequest r
  | OpEditBlock r => json_of_EditBlockRequest r
  end.



(** A header of a request. *)
Fixpoint header (name : string) (hs : list (string * string)) : option string :=
  match hs with
  | [] => None
  | (n, v) :: rest => if String.eqb name n then Some v else header name rest
  end.

(** The configuration [init] stores. *)
Definition loaded (sc : ServerConfig) (server base : string) : HttpClientConfig :=
  {| serverUrl := server;
     authUrl := sc_authUrl sc;
     authToken := Some (JStr (or_str (sc_authToken sc) EmptyString));
     basePath := base;
     username := sc_username sc;
     password := sc_password sc |}.

(** [c] with another token. *)
Definition with_token (c : HttpClientConfig) (tok : option json) : HttpClientConfig :=
  {| serverUrl := serverUrl c; authUrl := authUrl c; authToken := tok;
     basePath := basePath c; username := username c; password := password c |}.

(** A complete configuration: [serverUrl] and [basePath] set. *)
Record complete (sc : ServerConfig) (server base : string) : Prop := {
  cp_server : sc_serverUrl sc = Some server;
  cp_server_set : truthy_str server = true;
  cp_base : sc_basePath sc = Some base;
  cp_base_set : truthy_str base = true
}.

(** The test of [init] for logging in:
    [!authToken && username && password]. *)
Definition wants_login (sc : ServerConfig) : bool :=
  andb (andb (negb (truthy_ostr (sc_authToken sc))) (truthy_ostr (sc_username sc)))
       (truthy_ostr (sc_password sc)).

(** The request the facade's [readFile] causes for [filePath]. *)
Definition read_request (c : HttpClientConfig) (bearer filePath : string) : Request :=
  api_request c bearer "read_file"
    (json_of_FileReadRequest
       {| FileReadRequest.path := normalize (basePath c) filePath;
          FileReadRequest.offset := Some 0%Z;
          FileReadRequest.length := Some 1000%Z;
          FileReadRequest.isUrl := None |}).

(** The batch entry of a path that could not be read. *)
Definition failed_entry (filePath message : string) : Filesystem.MultiFileResult :=
  {| Filesystem.mf_path := filePath;
     Filesystem.mf_content := None;
     Filesystem.mf_mimeType := None;
     Filesystem.mf_isImage := None;
     Filesystem.mf_error := Some message |}.

(** A well-formed envelope: a success with data and no error, or a failure
    with an error message and no data. *)
Definition well_formed (envelope : ApiResponse) : Prop :=
  (success envelope = true /\ error envelope = None /\ data envelope <> None) \/
  (success envelope = false /\ data envelope = None /\
   exists message, error envelope = Some message /\
     (startsWith message "HTTP " = true \/
      startsWith message "Network error: " = true)).

(** A server that gives the same answer to everything. *)
Definition const_env (sc : ServerConfig) (answer : FetchOutcome) : Env :=
  {| getConfig := sc; transport := fun _ _ => answer |}.

(** A configuration without token and credentials. *)
Definition anonymous_config : ServerConfig :=
  {| sc_serverUrl := Some "http://srv";
     sc_authUrl := None;
     sc_authToken := None;
     sc_basePath := Some "/base";
     sc_username := None;
     sc_password := None |}.

(** A configuration that lacks [basePath]. *)
Definition incomplete_config : ServerConfig :=
  {| sc_serverUrl := Some "http://srv";
     sc_authUrl := None;
     sc_authToken := Some "tok";
     sc_basePath := None;
     sc_username := Some "alice";
     sc_password := Some "secret" |}.

(** An operation with its path normalised under [base]. *)
Definition normalized_op (base : string) (op : Operation) : Operation :=
  match op with
  | OpReadFile r =>
      OpReadFile (FileReadRequest.with_path r (normalize base (FileReadRequest.path r)))
  | OpWriteFile r =>
      OpWriteFile (FileWriteRequest.with_path r (normalize base (FileWriteRequest.path r)))
  | OpListDirectory r =>
      OpListDirectory
        (DirectoryListRequest.with_path r (normalize base (DirectoryListRequest.path r)))
  | OpSearchFiles r =>
      OpSearchFiles
        (FileSearchRequest.with_path r (normalize base (FileSearchRequest.path r)))
  | OpSearchCode r =>
      OpSearchCode
        (CodeSearchRequest.with_path r (normalize base (CodeSearchRequest.path r)))
  | OpCreateDirectory r =>
      OpCreateDirectory
        (CreateDirectoryRequest.with_path r
           (normalize base (CreateDirectoryRequest.path r)))
  | OpGetFileInfo r =>
      OpGetFileInfo
        (GetFileInfoRequest.with_path r (normalize base (GetFileInfoRequest.path r)))
  | OpEditBlock r =>
      OpEditBlock
        (EditBlockRequest.with_file_path r
           (normalize base (EditBlockRequest.file_path r)))
  end.

(** The request an operation puts on the wire. *)
Definition outbound (c : HttpClientConfig) (bearer : string) (op : Operation) : Request :=
  api_request c bearer (endpoint_name op)
    (request_json (normalized_op (basePath c) op)).

(** The continuation of a facade function: throw the envelope's error, or
    return something computed from the envelope. *)
Definition unwrap {A : Type} (fallback : string) (value : ApiResponse -> A)
  : ApiResponse -> M A :=
  fun response =>
    if negb (success response) then Filesystem.fail response fallback
    else ret (value response).

(** The fallback message of each facade function. *)
Definition fallback_message (call : Call) : string :=
  match call with
  | CallReadFile _ _ _ => "Failed to read file"
  | CallWriteFile _ _ _ => "Failed to write file"
  | CallCreateDirectory _ => "Failed to create directory"
  | CallListDirectory _ => "Failed to list directory"
  | CallSearchFiles _ _ _ => "Failed to search files"
  | CallGetFileInfo _ => "Failed to get file info"
  | CallSearchCode _ _ _ => "Failed to search code"
  | CallEditBlock _ _ _ _ => "Failed to edit block"
  end.

(** The operations that hand the envelope of [makeRequest] on as it is. *)
Definition plain (op : Operation) : Prop :=
  match op with
  | OpReadFile _ | OpListDirectory _ => False
  | _ => True
  end.

(** * Properties *)

Create HintDb async.
#[local] Hint Unfold bind ret throw try_catch lift this_config set_config
  configManager_getConfig fetch outcome after : async.

Ltac run := autounfold with async; cbn [fst snd config wire].

Ltac by_cases :=
  repeat match goal with
    | |- context [if ?b then _ else _] => destruct b
    | |- context [match ?x with _ => _ end] => destruct x
    end;
  reflexivity.


(** ** Strings *)

Lemma prefix_app (a b : string) : String.prefix a (a ++ b) = true.
Proof.
  induction a as [|ch a IH]; cbn.
  - now destruct b.
  - destruct (ascii_dec ch ch) as [_|ne]; [exact IH | now elim ne].
Qed.

Lemma startsWith_app (base rest : string) : startsWith (base ++ rest) base = true.
Proof. apply prefix_app. Qed.

Lemma normalize_startsWith (base p : string) :
  startsWith (normalize base p) base = true.
Proof.
  unfold normalize. destruct (startsWith p base) eqn:E; [exact E|].
  apply startsWith_app.
Qed.

Lemma normalize_idem (base p : string) :
  normalize base (normalize base p) = normalize base p.
Proof.
  unfold normalize at 1. now rewrite normalize_startsWith.
Qed.

(** ** validatePath *)

Lemma validatePath_run env w c p :
  config w = Some c ->
  HttpClient.validatePath p env w = (Ok (normalize (basePath c) p), w).
Proof.
  intros Hc. unfold HttpClient.validatePath, normalize. run. rewrite Hc.
  destruct (startsWith p (basePath c)); reflexivity.
Qed.

Lemma validatePath_uninitialized env w p :
  config w = None ->
  HttpClient.validatePath p env w = (Throw HttpClient.not_initialized, w).
Proof.
  intros Hc. unfold HttpClient.validatePath. run. now rewrite Hc.
Qed.

(** C5. On an initialised client, [validatePath] returns a path that
    already starts with [basePath] unchanged; any other path comes back
    with [basePath] in front, a slash inserted unless the path brings its
    own.  With [basePath = "/base"], ["/foo"] becomes ["/base/foo"] and
    ["/base/foo"] stays.  The result always starts with [basePath], and
    validating it again changes nothing. *)
Theorem C5_validatePath_normalizes env w c p :
  config w = Some c ->
  (startsWith p (basePath c) = true ->
     HttpClient.validatePath p env w = (Ok p, w)) /\
  (startsWith p (basePath c) = false -> startsWith p "/" = true ->
     HttpClient.validatePath p env w = (Ok (basePath c ++ p), w)) /\
  (startsWith p (basePath c) = false -> startsWith p "/" = false ->
     HttpClient.validatePath p env w = (Ok (basePath c ++ "/" ++ p), w)) /\
  (basePath c = "/base" ->
     HttpClient.validatePath "/foo" env w = (Ok "/base/foo", w) /\
     HttpClient.validatePath "/base/foo" env w = (Ok "/base/foo", w)) /\
  (exists q,
     HttpClient.validatePath p env w = (Ok q, w) /\
     startsWith q (basePath c) = true /\
     HttpClient.validatePath q env w = (Ok q, w)).
Proof.
  intros Hc. repeat split.
  - intros Hp. rewrite (validatePath_run env w c p Hc). unfold normalize. now rewrite Hp.
  - intros Hp Hs. rewrite (validatePath_run env w c p Hc). unfold normalize.
    now rewrite Hp, Hs.
  - intros Hp Hs. rewrite (validatePath_run env w c p Hc). unfold normalize.
    now rewrite Hp, Hs.
  - rewrite (validatePath_run env w c _ Hc), H. reflexivity.
  - rewrite (validatePath_run env w c _ Hc), H. reflexivity.
  - exists (normalize (basePath c) p). split; [|split].
    + apply validatePath_run, Hc.
    + apply normalize_startsWith.
    + rewrite (validatePath_run env w c _ Hc). now rewrite normalize_idem.
Qed.

Lemma C5_validatePath_witness :
  HttpClient.validatePath "/foo" one_file_env ready = (Ok "/base/foo", ready) /\
  HttpClient.validatePath "/base/foo" one_file_env ready = (Ok "/base/foo", ready).
Proof.
  exact (proj1 (proj2 (proj2 (proj2
    (C5_validatePath_normalizes one_file_env ready base_client "/foo" eq_refl))))
    eq_refl).
Defined.

Lemma length_append (a b : string) :
  String.length (a ++ b) = String.length a + String.length b.
Proof. induction a as [|ch a IH]; cbn; [reflexivity|now rewrite IH]. Qed.

Lemma startsWith_empty (p : string) : startsWith p EmptyString = true.
Proof. now destruct p. Qed.

(** A path that lacks the base path is changed by normalisation. *)
Lemma normalize_changes (base p : string) :
  startsWith p base = false -> normalize base p <> p.
Proof.
  intros Hp Heq. unfold normalize in Heq. rewrite Hp in Heq.
  apply (f_equal String.length) in Heq. rewrite !length_append in Heq.
  destruct base as [|ch base]; [now rewrite startsWith_empty in Hp|].
  cbn [String.length] in Heq. lia.
Qed.

(** C10. The [validatePath] exported by the filesystem module hands its
    argument back as it is and touches nothing; it adds no base path, so
    on a path that lacks the base path its result differs from that of the
    client's own [validatePath]. *)
Theorem C10_facade_validatePath_identity env w inputPath :
  Filesystem.validatePath inputPath env w = (Ok inputPath, w) /\
  (forall c, config w = Some c -> startsWith inputPath (basePath c) = false ->
     outcome (HttpClient.validatePath inputPath) env w <>
     outcome (Filesystem.validatePath inputPath) env w).
Proof.
  split; [reflexivity|].
  intros c Hc Hp. unfold outcome.
  rewrite (validatePath_run env w c inputPath Hc). cbn [fst Filesystem.validatePath ret].
  intros Heq. injection Heq as Heq.
  exact (normalize_changes (basePath c) inputPath Hp Heq).
Qed.

Lemma C10_facade_validatePath_witness :
  Filesystem.validatePath "/foo" one_file_env ready = (Ok "/foo", ready) /\
  outcome (HttpClient.validatePath "/foo") one_file_env ready <>
  outcome (Filesystem.validatePath "/foo") one_file_env ready.
Proof.
  split.
  - exact (proj1 (C10_facade_validatePath_identity one_file_env ready "/foo")).
  - exact (proj2 (C10_facade_validatePath_identity one_file_env ready "/foo")
             base_client eq_refl eq_refl).
Defined.

(** ** makeRequest *)

Lemma ok_false_iff r : ok r = false <-> (status r < 200 \/ 299 < status r)%N.
Proof.
  unfold ok. rewrite andb_false_iff, !N.leb_gt. tauto.
Qed.

Lemma ok_true_iff r : ok r = true <-> (200 <= status r <= 299)%N.
Proof.
  unfold ok. rewrite andb_true_iff, !N.leb_le. tauto.
Qed.

(** What [makeRequest] does on an initialised client: when the bearer
    header can be built, one request goes out and the envelope is the
    classification of what comes back; otherwise nothing is sent. *)
Lemma makeRequest_run env w c endpoint d :
  config w = Some c ->
  HttpClient.makeRequest endpoint d env w =
    match ToString_opt (authToken c) with
    | Throw e => (Ok (network_failure e), w)
    | Ok bearer =>
        let req := api_request c bearer endpoint d in
        (Ok (classify (transport env (wire w) req)), sent w req)
    end.
Proof.
  intros Hc. unfold HttpClient.makeRequest. run. rewrite Hc.
  destruct (ToString_opt (authToken c)) as [bearer|e]; [|reflexivity].
  cbn zeta. fold (api_request c bearer endpoint d).
  destruct (transport env (wire w) (api_request c bearer endpoint d)) as [e|r];
    cbn [classify]; [reflexivity|].
  destruct (ok r); cbn [negb]; [|reflexivity].
  destruct (json_body r); reflexivity.
Qed.

Lemma makeRequest_uninitialized env w endpoint d :
  config w = None ->
  HttpClient.makeRequest endpoint d env w = (Throw HttpClient.not_initialized, w).
Proof.
  intros Hc. unfold HttpClient.makeRequest. run. now rewrite Hc.
Qed.

(** C2. On an initialised client [makeRequest] sends one request and
    turns what comes back into an envelope: a response whose status is
    outside 200-299 gives [{success:false, error:"HTTP <status>:
    <statusText>"}] (["HTTP 404: Not Found"] for a 404), a rejected fetch
    gives [{success:false, error:"Network error: <message>"}], and a 2xx
    response gives [{success:true, data:<parsed body>}].  Every outcome
    falls in one of the three envelopes of [classify]. *)
Theorem C2_makeRequest_classifies env w c endpoint d bearer :
  config w = Some c ->
  ToString_opt (authToken c) = Ok bearer ->
  let req := api_request c bearer endpoint d in
  let answer := transport env (wire w) req in
  (forall r, answer = Resolved r -> (status r < 200 \/ 299 < status r)%N ->
     outcome (HttpClient.makeRequest endpoint d) env w =
       Ok {| success := false; data := None;
             error := Some ("HTTP " ++ string_of_N (status r) ++ ": "
                            ++ statusText r) |}) /\
  (forall r, answer = Resolved r -> status r = 404%N -> statusText r = "Not Found" ->
     outcome (HttpClient.makeRequest endpoint d) env w =
       Ok {| success := false; data := None;
             error := Some "HTTP 404: Not Found" |}) /\
  (forall message, answer = Rejected (ErrorObj message) ->
     outcome (HttpClient.makeRequest endpoint d) env w =
       Ok {| success := false; data := None;
             error := Some ("Network error: " ++ message) |}) /\
  (forall r v, answer = Resolved r -> (200 <= status r <= 299)%N ->
     json_body r = Ok v ->
     outcome (HttpClient.makeRequest endpoint d) env w =
       Ok {| success := true; data := Some v; error := None |}) /\
  outcome (HttpClient.makeRequest endpoint d) env w = Ok (classify answer) /\
  after (HttpClient.makeRequest endpoint d) env w = sent w req.
Proof.
  intros Hc Hb req answer. unfold outcome, after.
  rewrite (makeRequest_run env w c endpoint d Hc), Hb. cbn zeta. cbn [fst snd].
  fold req. fold answer. repeat split.
  - intros r Hr Hs. rewrite Hr. cbn [classify].
    now rewrite (proj2 (ok_false_iff r) Hs).
  - intros r Hr Hs Ht. rewrite Hr. cbn [classify].
    rewrite (proj2 (ok_false_iff r)) by (rewrite Hs; right; reflexivity).
    unfold http_failure. now rewrite Hs, Ht.
  - intros m Hr. now rewrite Hr.
  - intros r v Hr Hs Hj. rewrite Hr. cbn [classify].
    now rewrite (proj2 (ok_true_iff r) Hs), Hj.
Qed.

Lemma C2_makeRequest_witness :
  outcome (HttpClient.makeRequest "read_file" JNull)
          (env_with token_config (Resolved not_found)) ready =
    Ok {| success := false; data := None; error := Some "HTTP 404: Not Found" |}.
Proof.
  exact (proj1 (proj2
    (C2_makeRequest_classifies (env_with token_config (Resolved not_found)) ready
       base_client "read_file" JNull "tok" eq_refl eq_refl))
    not_found eq_refl eq_refl eq_refl).
Defined.

(** The remaining outcomes land in the network envelope as well: a thrown
    value that is no [Error], and a 2xx body that does not parse. *)
Lemma makeRequest_other_failures env w c endpoint d bearer :
  config w = Some c ->
  ToString_opt (authToken c) = Ok bearer ->
  let answer := transport env (wire w) (api_request c bearer endpoint d) in
  (forall v, answer = Rejected (NonError v) ->
     outcome (HttpClient.makeRequest endpoint d) env w =
       Ok {| success := false; data := None;
             error := Some "Network error: Unknown error" |}) /\
  (forall r e, answer = Resolved r -> ok r = true -> json_body r = Throw e ->
     outcome (HttpClient.makeRequest endpoint d) env w = Ok (network_failure e)).
Proof.
  intros Hc Hb answer. unfold outcome.
  rewrite (makeRequest_run env w c endpoint d Hc), Hb. cbn zeta. cbn [fst].
  fold answer. split.
  - intros v Hr. now rewrite Hr.
  - intros r e Hr Hs Hj. rewrite Hr. cbn [classify]. now rewrite Hs, Hj.
Qed.

Lemma classify_failure_has_error o :
  success (classify o) = false ->
  exists message, error (classify o) = Some message /\ data (classify o) = None.
Proof.
  destruct o as [e|r]; cbn [classify].
  - intros _. eexists. split; reflexivity.
  - destruct (ok r); [destruct (json_body r)|]; cbn; intros H;
      try discriminate; eexists; split; reflexivity.
Qed.

(** C3. On an initialised client [makeRequest] returns an envelope
    whatever the endpoint, the body and the behaviour of the transport; it
    never throws, and a failure is an envelope with [success = false] and
    an [error] string.  A 2xx response whose body is not JSON is such a
    failure. *)
Theorem C3_makeRequest_never_throws env w c endpoint d :
  config w = Some c ->
  (exists envelope,
     outcome (HttpClient.makeRequest endpoint d) env w = Ok envelope /\
     (success envelope = false ->
        exists message, error envelope = Some message /\ data envelope = None)) /\
  (forall bearer r e,
     ToString_opt (authToken c) = Ok bearer ->
     transport env (wire w) (api_request c bearer endpoint d) = Resolved r ->
     (200 <= status r <= 299)%N -> json_body r = Throw e ->
     outcome (HttpClient.makeRequest endpoint d) env w =
       Ok {| success := false; data := None;
             error := Some ("Network error: " ++ error_message e) |}).
Proof.
  intros Hc. unfold outcome.
  rewrite (makeRequest_run env w c endpoint d Hc). split.
  - destruct (ToString_opt (authToken c)) as [bearer|e]; cbn zeta; cbn [fst].
    + eexists. split; [reflexivity|]. apply classify_failure_has_error.
    + eexists. split; [reflexivity|]. intros _. eexists. split; reflexivity.
  - intros bearer r e Hb Hr Hs Hj. rewrite Hb. cbn zeta. cbn [fst].
    rewrite Hr. cbn [classify]. now rewrite (proj2 (ok_true_iff r) Hs), Hj.
Qed.

Lemma C3_makeRequest_witness :
  outcome (HttpClient.makeRequest "read_file" JNull)
          (env_with token_config (Resolved garbled)) ready =
    Ok {| success := false; data := None;
          error := Some "Network error: Unexpected token < in JSON at position 0" |}.
Proof.
  refine (proj2
    (C3_makeRequest_never_throws (env_with token_config (Resolved garbled)) ready
       base_client "read_file" JNull eq_refl)
    "tok" garbled _ eq_refl eq_refl _ eq_refl).
  vm_compute. split; discriminate.
Defined.

(** ** Outbound paths *)

Lemma normalized_ok c op req :
  transmitted_path (path_key op) req = Some (normalize (basePath c) (input_path op)) ->
  carries_normalized c op req.
Proof.
  intros H. exists (normalize (basePath c) (input_path op)).
  split; [exact H|]. split; [apply normalize_startsWith|].
  unfold normalize. split; intros E; now rewrite E.
Qed.

(** Every operation is [validatePath] on the input path followed by one
    [makeRequest]; whatever happens afterwards leaves the wire alone. *)
Lemma perform_wire env w c op :
  config w = Some c ->
  match ToString_opt (authToken c) with
  | Throw _ => after (perform op) env w = w
  | Ok bearer =>
      exists endpoint d,
        after (perform op) env w = sent w (api_request c bearer endpoint d) /\
        transmitted_path (path_key op) (api_request c bearer endpoint d) =
          Some (normalize (basePath c) (input_path op))
  end.
Proof.
  intros Hc.
  destruct op as [r|r|r|r|r|r|r|r]; cbn [perform input_path path_key];
    unfold HttpClient.readFile, HttpClient.writeFile, HttpClient.listDirectory,
      HttpClient.searchFiles, HttpClient.searchCode, HttpClient.createDirectory,
      HttpClient.getFileInfo, HttpClient.editBlock;
    unfold after, bind;
    rewrite (validatePath_run env w c _ Hc);
    rewrite (makeRequest_run env w c _ _ Hc);
    unfold lift, ret, throw;
    (destruct (ToString_opt (authToken c)) as [bearer|e]; cbv beta iota zeta;
     [eexists; eexists; split; [by_cases|reflexivity] | by_cases]).
Qed.

(** C1. Whatever operation the client performs and whatever path it is
    given, the request it puts on the wire carries, in its path field
    ([file_path] for [editBlock], [path] otherwise), a path that starts
    with [basePath]: the input path itself when that already starts with
    [basePath], and [basePath] put in front of it otherwise. *)
Theorem C1_outbound_path_prefixed env w c op :
  config w = Some c ->
  exists newly,
    wire (after (perform op) env w) = (wire w ++ newly)%list /\
    (forall bearer, ToString_opt (authToken c) = Ok bearer ->
       exists req, newly = [req]) /\
    Forall (carries_normalized c op) newly.
Proof.
  intros Hc. pose proof (perform_wire env w c op Hc) as H.
  destruct (ToString_opt (authToken c)) as [bearer|e].
  - destruct H as (endpoint & d & Hw & Hp).
    exists [api_request c bearer endpoint d]. rewrite Hw. split; [reflexivity|].
    split; [intros; eexists; reflexivity|].
    constructor; [|constructor]. now apply normalized_ok.
  - exists []. rewrite H, app_nil_r. split; [reflexivity|].
    split; [discriminate|constructor].
Qed.

Lemma C1_outbound_path_witness :
  exists newly,
    wire (after (perform (OpEditBlock
                   {| EditBlockRequest.file_path := "notes.txt";
                      EditBlockRequest.old_string := "a";
                      EditBlockRequest.new_string := "b";
                      EditBlockRequest.expected_replacements := Some 1%Z |}))
                one_file_env ready) = (wire ready ++ newly)%list /\
    (forall bearer, ToString_opt (authToken base_client) = Ok bearer ->
       exists req, newly = [req]) /\
    Forall (carries_normalized base_client
              (OpEditBlock
                 {| EditBlockRequest.file_path := "notes.txt";
                    EditBlockRequest.old_string := "a";
                    EditBlockRequest.new_string := "b";
                    EditBlockRequest.expected_replacements := Some 1%Z |})) newly.
Proof.
  exact (C1_outbound_path_prefixed one_file_env ready base_client _ eq_refl).
Defined.

(** What goes out for [editBlock "notes.txt"] and for [readFile "/base/a"]. *)
Example outbound_examples :
  map (transmitted_path "file_path")
      (wire (after (perform (OpEditBlock
                      {| EditBlockRequest.file_path := "notes.txt";
                         EditBlockRequest.old_string := "a";
                         EditBlockRequest.new_string := "b";
                         EditBlockRequest.expected_replacements := Some 1%Z |}))
                   one_file_env ready)) = [Some "/base/notes.txt"] /\
  map (transmitted_path "path")
      (wire (after (perform (OpReadFile
                      {| FileReadRequest.path := "/base/a";
                         FileReadRequest.offset := None;
                         FileReadRequest.length := None;
                         FileReadRequest.isUrl := None |}))
                   one_file_env ready)) = [Some "/base/a"].
Proof. split; reflexivity. Qed.

(** ** Authentication *)

Lemma or_str_falsy o : truthy_ostr o = false -> or_str o "" = "".
Proof.
  destruct o as [s|]; [|reflexivity]. cbn. now intros ->.
Qed.





Lemma after_bind {A B : Type} (m : M A) (k : A -> M B) env w :
  after (x <- m ;; k x) env w =
    match outcome m env w with
    | Ok a => after (k a) env (after m env w)
    | Throw _ => after m env w
    end.
Proof.
  unfold after, outcome, bind. now destruct (m env w) as [[a|e] w'].
Qed.


Lemma fail_after {A : Type} r fallback env w :
  after (@Filesystem.fail A r fallback) env w = w.
Proof. reflexivity. Qed.






(** ** Initialisation *)

Lemma init_incomplete env w :
  truthy_ostr (sc_serverUrl (getConfig env)) = false \/
  truthy_ostr (sc_basePath (getConfig env)) = false ->
  HttpClient.init env w = (Throw HttpClient.incomplete, w).
Proof.
  unfold HttpClient.init. run.
  destruct (sc_serverUrl (getConfig env)) as [server|],
           (sc_basePath (getConfig env)) as [base|];
    cbn [truthy_ostr]; intros [H|H]; try discriminate H; try reflexivity;
    rewrite H; cbn [negb orb]; [reflexivity|].
  now rewrite orb_true_r.
Qed.

Lemma init_complete env w server base :
  sc_serverUrl (getConfig env) = Some server -> truthy_str server = true ->
  sc_basePath (getConfig env) = Some base -> truthy_str base = true ->
  exists c,
    config (after HttpClient.init env w) = Some c /\
    serverUrl c = server /\ basePath c = base /\
    outcome HttpClient.init env w <> Throw HttpClient.incomplete.
Proof.
  intros Hs Hst Hb Hbt.
  unfold HttpClient.init, HttpClient.authenticate, set_authToken. run.
  rewrite Hs, Hb, Hst, Hbt. cbn [negb orb].
  destruct (sc_username (getConfig env)) as [user|],
           (sc_password (getConfig env)) as [pass|];
    cbn [truthy_ostr]; rewrite ?andb_false_r; cbn [config wire];
    cbv beta iota zeta; cbn [config wire].
  2-4: eexists; repeat split; discriminate.
  destruct (negb (truthy_str (or_str (sc_authToken (getConfig env)) ""))),
           (truthy_str user) eqn:Hu, (truthy_str pass) eqn:Hp;
    cbn [andb config wire]; cbv beta iota zeta; cbn [andb config wire];
    rewrite ?Hu, ?Hp; cbn [andb].
  2-8: eexists; repeat split; discriminate.
  match goal with
  | |- context [transport env ?sofar ?req] =>
      destruct (transport env sofar req) as [e|r]; cbn [config wire]
  end.
  { eexists; repeat split; discriminate. }
  destruct (ok r); cbn [negb].
  - destruct (json_body r) as [tokenData|e].
    + destruct (get_prop tokenData "access_token");
        eexists; repeat split; discriminate.
    + eexists; repeat split; discriminate.
  - destruct (text r); eexists; repeat split; discriminate.
Qed.

(** C9, as the code has it.  [init] fails with the configuration error
    when [serverUrl] or [basePath] is absent or empty, whatever the other
    fields hold, and then leaves the client as it was; when both are set to
    non-empty strings the configuration error is not raised and the client
    ends up holding a configuration with that [serverUrl] and that
    [basePath]. *)
Theorem C9_init_requires_serverUrl_and_basePath env w :
  (truthy_ostr (sc_serverUrl (getConfig env)) = false \/
   truthy_ostr (sc_basePath (getConfig env)) = false ->
     HttpClient.init env w = (Throw HttpClient.incomplete, w)) /\
  (forall server base,
     sc_serverUrl (getConfig env) = Some server -> truthy_str server = true ->
     sc_basePath (getConfig env) = Some base -> truthy_str base = true ->
     exists c,
       config (after HttpClient.init env w) = Some c /\
       serverUrl c = server /\ basePath c = base /\
       outcome HttpClient.init env w <> Throw HttpClient.incomplete).
Proof.
  split; [apply init_incomplete | apply init_complete].
Qed.

Lemma C9_init_witness :
  HttpClient.init
    (env_with {| sc_serverUrl := Some "http://srv"; sc_authUrl := None;
                 sc_authToken := Some "tok"; sc_basePath := None;
                 sc_username := Some "alice"; sc_password := Some "secret" |}
              (Resolved not_found)) fresh
    = (Throw HttpClient.incomplete, fresh) /\
  exists c,
    config (after HttpClient.init one_file_env fresh) = Some c /\
    serverUrl c = "http://srv" /\ basePath c = "/base" /\
    outcome HttpClient.init one_file_env fresh <> Throw HttpClient.incomplete.
Proof.
  split.
  - apply (proj1 (C9_init_requires_serverUrl_and_basePath _ fresh)).
    right. reflexivity.
  - apply (proj2 (C9_init_requires_serverUrl_and_basePath one_file_env fresh)
             "http://srv" "/base"); reflexivity.
Defined.

(** Against C9 as stated: [serverUrl] and [basePath] are both present in
    the configuration, yet [init] fails with the configuration error and
    the client stays without a configuration, because the [serverUrl] that
    is present is the empty string. *)
Lemma C9_counterexample :
  let env := env_with empty_url_config (Resolved not_found) in
  sc_serverUrl (getConfig env) = Some "" /\
  sc_basePath (getConfig env) = Some "/base" /\
  HttpClient.init env fresh = (Throw HttpClient.incomplete, fresh) /\
  config (after HttpClient.init env fresh) = None.
Proof. cbv zeta. repeat split. Qed.

(** ** readFile *)

(** [readFile] on an initialised client, when the bearer header can be
    built: one request, and the envelope reshaped by
    [response.data?.data || response.data]. *)
Lemma readFile_run env w c request bearer :
  config w = Some c ->
  ToString_opt (authToken c) = Ok bearer ->
  let req := api_request c bearer "read_file"
               (json_of_FileReadRequest
                  (FileReadRequest.with_path request
                     (normalize (basePath c) (FileReadRequest.path request)))) in
  HttpClient.readFile request env w =
    (Ok (let response := classify (transport env (wire w) req) in
         if negb (success response) then response
         else {| success := true;
                 data := or_opt (get_prop_opt (data response) "data") (data response);
                 error := None |}),
     sent w req).
Proof.
  intros Hc Hb req. unfold HttpClient.readFile, bind.
  rewrite (validatePath_run env w c _ Hc), (makeRequest_run env w c _ _ Hc), Hb.
  cbv beta iota zeta. fold req.
  now destruct (negb (success (classify (transport env (wire w) req)))).
Qed.

(** Where the unwrapping does what it is meant to: a nested [data] that is
    truthy is returned, and a body without a nested [data] is returned
    whole. *)
Lemma readFile_unwraps env w c request bearer r body :
  config w = Some c ->
  ToString_opt (authToken c) = Ok bearer ->
  transport env (wire w)
    (api_request c bearer "read_file"
       (json_of_FileReadRequest
          (FileReadRequest.with_path request
             (normalize (basePath c) (FileReadRequest.path request))))) = Resolved r ->
  ok r = true ->
  json_body r = Ok body ->
  (forall v, get_prop_opt (Some body) "data" = Some v -> truthy v = true ->
     outcome (HttpClient.readFile request) env w = Ok (success_with v)) /\
  (get_prop_opt (Some body) "data" = None ->
     outcome (HttpClient.readFile request) env w = Ok (success_with body)) /\
  (forall v, get_prop_opt (Some body) "data" = Some v -> truthy v = false ->
     outcome (HttpClient.readFile request) env w = Ok (success_with body)).
Proof.
  intros Hc Hb Hr Hok Hj. unfold outcome.
  rewrite (readFile_run env w c request bearer Hc Hb). cbv zeta. cbn [fst].
  rewrite Hr. cbn [classify]. rewrite Hok, Hj. cbn [success_with success data negb].
  unfold or_opt. repeat split.
  - intros v Hv Ht. rewrite Hv. cbn [truthy_opt]. now rewrite Ht.
  - intros Hv. now rewrite Hv.
  - intros v Hv Ht. rewrite Hv. cbn [truthy_opt]. now rewrite Ht.
Qed.

(** C6, at the input where the code departs from it.  The server answers
    [read_file] for an empty file with the nested envelope [{data: ""}]:
    the nested [data] is present and is the content, yet [readFile] hands
    back the whole envelope object, and the facade passes that object on as
    the file's [content].  With a non-empty file the nested string comes
    back, as the claim says. *)
Theorem C6_readFile_empty_nested_content :
  let request := {| FileReadRequest.path := "/base/empty.txt";
                    FileReadRequest.offset := Some 0%Z;
                    FileReadRequest.length := Some 1000%Z;
                    FileReadRequest.isUrl := None |} in
  let empty := env_with token_config
                 (Resolved (json_response (JObj [("data", JStr "")]))) in
  let full := env_with token_config
                (Resolved (json_response (JObj [("data", JStr "hello")]))) in
  outcome (HttpClient.readFile request) empty ready =
    Ok {| success := true; data := Some (JObj [("data", JStr "")]); error := None |} /\
  outcome (Filesystem.readFileFromDisk "/base/empty.txt" 0 1000) empty fresh =
    Ok {| Filesystem.content := JObj [("data", JStr "")];
          Filesystem.mimeType := "text/plain";
          Filesystem.isImage := false |} /\
  outcome (HttpClient.readFile request) full ready =
    Ok {| success := true; data := Some (JStr "hello"); error := None |}.
Proof. cbv zeta. repeat split. Qed.

(** ** listDirectory *)

Lemma truthy_str_iff s : truthy_str s = true <-> s <> "".
Proof. destruct s; cbn; split; congruence. Qed.







(** A number of 22 digits and a tag with a character beyond ASCII lie
    outside the entries the statement above speaks of. *)
Example listing_domain :
  safe_numbers (JNum 1000000000000000000000) = false /\
  safe_numbers (JArr [JNum 7; JArr [JNum 1000000000000000000000]]) = false /\
  ascii_only (String (ascii_of_nat 233) EmptyString) = false /\
  safe_numbers (JArr [JNum 7; JNull; JObj [("n", JNum 1000000000000000000000)]]) = true.
Proof. repeat split. Qed.

(** ** readMultipleFiles *)

Lemma Reads_paths env w paths results w' :
  Reads env w paths results w' ->
  map Filesystem.mf_path results = paths /\ Forall content_xor_error results.
Proof.
  induction 1 as [w|w p rest fr w1 results w2 _ _ [IHp IHc]
                    |w p rest e w1 results w2 _ _ [IHp IHc]].
  - split; constructor.
  - split; [cbn; now rewrite IHp|]. constructor; [|exact IHc].
    left. split; [discriminate|reflexivity].
  - split; [cbn; now rewrite IHp|]. constructor; [|exact IHc].
    right. split; [reflexivity|discriminate].
Qed.

(** The loop never throws: it returns what it had accumulated followed by
    the entries of the remaining paths. *)
Lemma read_loop_run env paths :
  forall acc w, exists results w',
    Filesystem.read_loop paths acc env w = (Ok (acc ++ results)%list, w') /\
    Reads env w paths results w'.
Proof.
  induction paths as [|p rest IH]; intros acc w.
  - exists [], w. cbn. rewrite app_nil_r. split; [reflexivity|constructor].
  - cbn [Filesystem.read_loop]. unfold bind at 1.
    unfold Filesystem.read_one, try_catch, bind, ret.
    destruct (Filesystem.readFile p false 0 1000 env w) as [[fr|e] w1] eqn:Hread.
    + destruct (IH (acc ++ [{| Filesystem.mf_path := p;
                               Filesystem.mf_content := Some (Filesystem.content fr);
                               Filesystem.mf_mimeType := Some (Filesystem.mimeType fr);
                               Filesystem.mf_isImage := Some (Filesystem.isImage fr);
                               Filesystem.mf_error := None |}])%list w1)
        as (results & w2 & Hrun & Hreads).
      eexists (_ :: results), w2. split.
      * rewrite Hrun, <- app_assoc. reflexivity.
      * eapply Reads_content; eassumption.
    + destruct (IH (acc ++ [{| Filesystem.mf_path := p;
                               Filesystem.mf_content := None;
                               Filesystem.mf_mimeType := None;
                               Filesystem.mf_isImage := None;
                               Filesystem.mf_error := Some (error_message e) |}])%list w1)
        as (results & w2 & Hrun & Hreads).
      eexists (_ :: results), w2. split.
      * rewrite Hrun, <- app_assoc. reflexivity.
      * eapply Reads_error; eassumption.
Qed.

(** C8. For every list of paths, in every world and whatever the server
    does, [readMultipleFiles] returns (it does not throw); its results are
    those of reading the paths one after the other in the order given; there
    is one result per path, in that order, carrying that path; and each
    result has a content and no error when its read succeeded, an error and
    no content when it failed. *)
Theorem C8_readMultipleFiles_collects_errors env w paths :
  exists results,
    Filesystem.readMultipleFiles paths env w =
      (Ok results, after (Filesystem.readMultipleFiles paths) env w) /\
    Reads env w paths results (after (Filesystem.readMultipleFiles paths) env w) /\
    map Filesystem.mf_path results = paths /\
    List.length results = List.length paths /\
    Forall content_xor_error results.
Proof.
  unfold Filesystem.readMultipleFiles, after.
  destruct (read_loop_run env paths [] w) as (results & w' & Hrun & Hreads).
  exists results. rewrite Hrun. cbn [snd app].
  destruct (Reads_paths env w paths results w' Hreads) as [Hp Hc].
  repeat split; try assumption.
  rewrite <- Hp. now rewrite length_map.
Qed.

(** The batch of section 8: [/a] is there and [/missing] is not. *)
Example readMultipleFiles_partial_failure :
  outcome (Filesystem.readMultipleFiles ["/a"; "/missing"]) one_file_env fresh =
    Ok [ {| Filesystem.mf_path := "/a";
            Filesystem.mf_content := Some (JStr "hello");
            Filesystem.mf_mimeType := Some "text/plain";
            Filesystem.mf_isImage := Some false;
            Filesystem.mf_error := None |};
         {| Filesystem.mf_path := "/missing";
            Filesystem.mf_content := None;
            Filesystem.mf_mimeType := None;
            Filesystem.mf_isImage := None;
            Filesystem.mf_error := Some "HTTP 404: Not Found" |} ] /\
  map (transmitted_path "path")
      (wire (after (Filesystem.readMultipleFiles ["/a"; "/missing"])
                   one_file_env fresh)) =
    [Some "/base/a"; Some "/base/missing"].
Proof. split; reflexivity. Qed.


(** * Further properties of the client and of the facade *)

(** ** init and authenticate *)

Lemma truthy_or_str o : truthy_str (or_str o EmptyString) = truthy_ostr o.
Proof.
  destruct o as [s|]; [|reflexivity]. cbn. now destruct (truthy_str s) eqn:E.
Qed.

(** With a complete configuration [init] stores the loaded configuration
    and then logs in or not, as [wants_login] says. *)
Lemma init_run env w server base :
  complete (getConfig env) server base ->
  HttpClient.init env w =
    if wants_login (getConfig env)
    then HttpClient.authenticate env
           {| config := Some (loaded (getConfig env) server base); wire := wire w |}
    else (Ok tt, {| config := Some (loaded (getConfig env) server base);
                    wire := wire w |}).
Proof.
  intros [Hs Hst Hb Hbt]. unfold HttpClient.init, wants_login. run.
  rewrite Hs, Hb, Hst, Hbt. cbn [negb orb]. rewrite truthy_or_str.
  fold (loaded (getConfig env) server base).
  now destruct (negb (truthy_ostr (sc_authToken (getConfig env)))
                && truthy_ostr (sc_username (getConfig env))
                && truthy_ostr (sc_password (getConfig env)))%bool.
Qed.

(** [authenticate] with credentials at hand: the token request goes out,
    and every way it can fail ends in an [Authentication failed] error. *)
Lemma authenticate_run env w c user pass :
  config w = Some c ->
  username c = Some user -> password c = Some pass ->
  truthy_str user = true -> truthy_str pass = true ->
  let token := token_request (getConfig env) user pass in
  let failed message :=
    (@Throw unit (ErrorObj ("Authentication failed: " ++ message)), sent w token) in
  HttpClient.authenticate env w =
    match transport env (wire w) token with
    | Rejected e => failed (error_message e)
    | Resolved r =>
        if ok r then
          match json_body r with
          | Throw e => failed (error_message e)
          | Ok tokenData =>
              match get_prop tokenData "access_token" with
              | Throw e => failed (error_message e)
              | Ok tok =>
                  (Ok tt, {| config := Some (with_token c tok);
                             wire := (wire w ++ [token])%list |})
              end
          end
        else
          match text r with
          | Throw e => failed (error_message e)
          | Ok errorText =>
              failed ("Keycloak authentication failed: "
                      ++ string_of_N (status r) ++ " " ++ statusText r
                      ++ " - " ++ errorText)
          end
    end.
Proof.
  intros Hc Hu Hp Hut Hpt token failed.
  unfold HttpClient.authenticate, set_authToken. run. rewrite Hc.
  destruct c as [cs ca ct cb cu cp]. cbn in Hu, Hp. subst cu cp.
  rewrite Hut, Hpt. cbn [andb]. subst token failed.
  unfold token_request, sent, with_token. cbv beta.
  match goal with
  | |- context [transport env ?sofar ?req] =>
      destruct (transport env sofar req) as [e|r]
  end; cbn [config wire]; [reflexivity|].
  destruct (ok r); cbn [negb]; cbv beta iota.
  - destruct (json_body r) as [tokenData|e]; [|reflexivity].
    destruct (get_prop tokenData "access_token"); [|reflexivity].
    cbn [config wire]. now rewrite Hc.
  - now destruct (text r).
Qed.

Lemma needs_login_complete sc server base user pass :
  needs_login sc server base user pass -> complete sc server base.
Proof. intros [Hs Hst Hb Hbt _ _ _ _ _]. now constructor. Qed.

Lemma needs_login_wants sc server base user pass :
  needs_login sc server base user pass -> wants_login sc = true.
Proof.
  intros [_ _ _ _ Ht Hu Hut Hp Hpt]. unfold wants_login.
  rewrite Ht, Hu, Hp. cbn. now rewrite Hut, Hpt.
Qed.

(** X1. With a complete configuration that holds a token, or lacks the
    user name or the password, [init] succeeds without contacting the
    identity provider: nothing is sent, and the client holds the loaded
    configuration with the configured token (the empty string when there is
    none). *)
Theorem init_without_login env w server base :
  complete (getConfig env) server base ->
  (truthy_ostr (sc_authToken (getConfig env)) = true \/
   truthy_ostr (sc_username (getConfig env)) = false \/
   truthy_ostr (sc_password (getConfig env)) = false) ->
  HttpClient.init env w =
    (Ok tt, {| config := Some (loaded (getConfig env) server base); wire := wire w |}).
Proof.
  intros Hcomplete Hskip. rewrite (init_run env w server base Hcomplete).
  replace (wants_login (getConfig env)) with false; [reflexivity|].
  unfold wants_login. destruct Hskip as [H|[H|H]]; rewrite H; cbn;
    now rewrite ?andb_false_r.
Qed.

Lemma init_without_login_witness :
  HttpClient.init (const_env anonymous_config (Resolved not_found)) fresh =
    (Ok tt, {| config := Some (loaded anonymous_config "http://srv" "/base");
               wire := [] |}).
Proof.
  apply (init_without_login (const_env anonymous_config (Resolved not_found)) fresh
           "http://srv" "/base").
  - constructor; reflexivity.
  - right. left. reflexivity.
Defined.

(** ** The client operations *)

Ltac unfold_operation :=
  unfold HttpClient.readFile, HttpClient.writeFile, HttpClient.listDirectory,
    HttpClient.searchFiles, HttpClient.searchCode, HttpClient.createDirectory,
    HttpClient.getFileInfo, HttpClient.editBlock.

Lemma perform_unconfigured env w op :
  config w = None ->
  perform op env w = (Throw HttpClient.not_initialized, w).
Proof.
  intros Hc. destruct op; cbn [perform]; unfold_operation; unfold bind;
    now rewrite (validatePath_uninitialized env w _ Hc).
Qed.

(** X5. On a client that was never initialised, each of the eight
    operations throws [HTTP client not initialized] and sends nothing, and
    so does a facade-less use of [makeRequest]; a failed [init] with an
    incomplete configuration leaves the client in that state. *)
Theorem perform_uninitialized env w op :
  config w = None ->
  perform op env w = (Throw HttpClient.not_initialized, w) /\
  (forall endpoint d,
     HttpClient.makeRequest endpoint d env w = (Throw HttpClient.not_initialized, w)) /\
  (truthy_ostr (sc_serverUrl (getConfig env)) = false \/
   truthy_ostr (sc_basePath (getConfig env)) = false ->
     outcome (HttpClient.init ;; perform op) env w = Throw HttpClient.incomplete /\
     config (after (HttpClient.init ;; perform op) env w) = None).
Proof.
  intros Hc. split; [exact (perform_unconfigured env w op Hc)|]. split.
  - intros endpoint d. exact (makeRequest_uninitialized env w endpoint d Hc).
  - intros Hmissing. unfold outcome, after, bind.
    rewrite (init_incomplete env w Hmissing). now split.
Qed.

Lemma perform_uninitialized_witness :
  perform (OpListDirectory {| DirectoryListRequest.path := "/" |}) one_file_env fresh =
    (Throw HttpClient.not_initialized, fresh).
Proof.
  exact (proj1 (perform_uninitialized one_file_env fresh _ eq_refl)).
Defined.

(** The exact request of an operation. *)
Lemma perform_sends env w c op bearer :
  config w = Some c ->
  ToString_opt (authToken c) = Ok bearer ->
  after (perform op) env w = sent w (outbound c bearer op).
Proof.
  intros Hc Hb.
  destruct op as [r|r|r|r|r|r|r|r]; cbn [perform]; unfold_operation;
    unfold after, bind, outbound;
    cbn [endpoint_name normalized_op request_json];
    rewrite (validatePath_run env w c _ Hc);
    rewrite (makeRequest_run env w c _ _ Hc), Hb;
    unfold lift, ret, throw; cbv beta iota zeta; by_cases.
Qed.

(** When the bearer header cannot be built nothing is sent and the
    operation reports a network failure. *)
Lemma perform_no_bearer env w c op e :
  config w = Some c ->
  ToString_opt (authToken c) = Throw e ->
  perform op env w = (Ok (network_failure e), w).
Proof.
  intros Hc Hb.
  destruct op as [r|r|r|r|r|r|r|r]; cbn [perform]; unfold_operation;
    unfold bind;
    rewrite (validatePath_run env w c _ Hc);
    rewrite (makeRequest_run env w c _ _ Hc), Hb; reflexivity.
Qed.

Lemma perform_config env w op :
  config (after (perform op) env w) = config w.
Proof.
  destruct (config w) as [c|] eqn:Hc.
  - destruct (ToString_opt (authToken c)) as [bearer|e] eqn:Hb.
    + rewrite (perform_sends env w c op bearer Hc Hb). exact Hc.
    + unfold after. rewrite (perform_no_bearer env w c op e Hc Hb). exact Hc.
  - unfold after. rewrite (perform_unconfigured env w op Hc). exact Hc.
Qed.

(** X6. No operation changes the client's configuration, initialised or
    not and whatever the server answers, and no operation sends more than
    one request: there is no retry. *)
Theorem perform_keeps_config env w op :
  config (after (perform op) env w) = config w /\
  exists newly,
    wire (after (perform op) env w) = (wire w ++ newly)%list /\
    (List.length newly <= 1)%nat.
Proof.
  split; [apply perform_config|].
  destruct (config w) as [c|] eqn:Hc.
  - destruct (ToString_opt (authToken c)) as [bearer|e] eqn:Hb.
    + rewrite (perform_sends env w c op bearer Hc Hb).
      exists [outbound c bearer op]. split; [reflexivity|cbn; lia].
    + unfold after. rewrite (perform_no_bearer env w c op e Hc Hb).
      exists []. cbn [snd]. rewrite app_nil_r. split; [reflexivity|cbn; lia].
  - unfold after. rewrite (perform_unconfigured env w op Hc).
    exists []. cbn [snd]. rewrite app_nil_r. split; [reflexivity|cbn; lia].
Qed.

Lemma lookup_other k k' v fields :
  k <> k' -> lookup k ((k', v) :: fields) = lookup k fields.
Proof.
  intros Hk. cbn [lookup]. now rewrite (proj2 (String.eqb_neq k k') Hk).
Qed.

Lemma normalize_already base p : startsWith p base = true -> normalize base p = p.
Proof. unfold normalize. now intros ->. Qed.



Lemma network_failure_well_formed e : well_formed (network_failure e).
Proof.
  right. repeat split. eexists. split; [reflexivity|]. right.
  apply startsWith_app.
Qed.

Lemma classify_well_formed o : well_formed (classify o).
Proof.
  destruct o as [e|r]; cbn [classify]; [apply network_failure_well_formed|].
  destruct (ok r).
  - destruct (json_body r); [|apply network_failure_well_formed].
    left. repeat split. discriminate.
  - right. repeat split. eexists. split; [reflexivity|]. left.
    apply startsWith_app.
Qed.

Lemma or_opt_some a v : or_opt a (Some v) <> None.
Proof.
  unfold or_opt. destruct a as [x|]; cbn; [destruct (truthy x)|]; discriminate.
Qed.

(** What the two reshaping operations return, given the envelope of
    [makeRequest]. *)
Lemma readFile_reshapes env w c request :
  config w = Some c ->
  exists envelope,
    well_formed envelope /\
    outcome (HttpClient.readFile request) env w =
      Ok (if negb (success envelope) then envelope
          else {| success := true;
                  data := or_opt (get_prop_opt (data envelope) "data") (data envelope);
                  error := None |}).
Proof.
  intros Hc. unfold outcome, HttpClient.readFile, bind.
  rewrite (validatePath_run env w c _ Hc), (makeRequest_run env w c _ _ Hc).
  destruct (ToString_opt (authToken c)) as [bearer|e]; cbv beta iota zeta.
  - match goal with |- context [classify ?o] => exists (classify o) end.
    split; [apply classify_well_formed|].
    now destruct (negb (success (classify _))).
  - eexists. split; [apply (network_failure_well_formed e)|]. reflexivity.
Qed.

Lemma listDirectory_reshapes env w c request :
  config w = Some c ->
  exists envelope,
    well_formed envelope /\
    outcome (HttpClient.listDirectory request) env w =
      if negb (success envelope) then Ok envelope
      else
        match or_opt (or_opt (get_prop_opt (data envelope) "data") (data envelope))
                     (Some (JArr [])) with
        | Some (JArr entries) =>
            match HttpClient.map_items HttpClient.item_name entries with
            | Ok itemNames => Ok (success_with (JArr (map JStr itemNames)))
            | Throw e => Throw e
            end
        | _ => Throw (ErrorObj "items.map is not a function")
        end.
Proof.
  intros Hc. unfold outcome, HttpClient.listDirectory, bind.
  rewrite (validatePath_run env w c _ Hc), (makeRequest_run env w c _ _ Hc).
  destruct (ToString_opt (authToken c)) as [bearer|e]; cbv beta iota zeta.
  - match goal with |- context [classify ?o] => exists (classify o) end.
    split; [apply classify_well_formed|].
    destruct (negb (success (classify _))); [reflexivity|].
    unfold lift, ret, throw. by_cases.
  - eexists. split; [apply (network_failure_well_formed e)|]. reflexivity.
Qed.

Lemma perform_well_formed env w op envelope :
  outcome (perform op) env w = Ok envelope -> well_formed envelope.
Proof.
  destruct (config w) as [c|] eqn:Hc.
  2:{ unfold outcome. rewrite (perform_unconfigured env w op Hc). discriminate. }
  assert (Hplain : forall endpoint d,
            outcome (HttpClient.makeRequest endpoint d) env w = Ok envelope ->
            well_formed envelope).
  { intros endpoint d. unfold outcome.
    rewrite (makeRequest_run env w c endpoint d Hc).
    destruct (ToString_opt (authToken c)); cbn; intros H; injection H as <-;
      [apply classify_well_formed | apply network_failure_well_formed]. }
  destruct op as [r|r|r|r|r|r|r|r]; cbn [perform].
  - destruct (readFile_reshapes env w c r Hc) as (inner & Hwf & ->).
    intros H. injection H as <-.
    destruct Hwf as [(Hs & _ & Hd)|(Hs & Hrest)]; rewrite Hs; cbn [negb].
    + left. repeat split. cbn [data].
      destruct (data inner) as [v|]; [apply or_opt_some|congruence].
    + right. split; [exact Hs|exact Hrest].
  - unfold_operation. unfold outcome, bind.
    rewrite (validatePath_run env w c _ Hc). apply Hplain.
  - destruct (listDirectory_reshapes env w c r Hc) as (inner & Hwf & ->).
    destruct Hwf as [(Hs & _ & Hd)|(Hs & Hrest)]; rewrite Hs; cbn [negb].
    + destruct (or_opt _ _) as [[| | | |entries|]|]; try discriminate.
      destruct (HttpClient.map_items _ _); [|discriminate].
      intros H. injection H as <-. left. repeat split. discriminate.
    + intros H. injection H as <-. right. split; [exact Hs|exact Hrest].
  - unfold_operation. unfold outcome, bind.
    rewrite (validatePath_run env w c _ Hc). apply Hplain.
  - unfold_operation. unfold outcome, bind.
    rewrite (validatePath_run env w c _ Hc). apply Hplain.
  - unfold_operation. unfold outcome, bind.
    rewrite (validatePath_run env w c _ Hc). apply Hplain.
  - unfold_operation. unfold outcome, bind.
    rewrite (validatePath_run env w c _ Hc). apply Hplain.
  - unfold_operation. unfold outcome, bind.
    rewrite (validatePath_run env w c _ Hc). apply Hplain.
Qed.

Lemma perform_returns env w c op :
  config w = Some c ->
  (forall r, op <> OpListDirectory r) ->
  exists envelope, outcome (perform op) env w = Ok envelope.
Proof.
  intros Hc Hop.
  destruct op as [r|r|r|r|r|r|r|r]; cbn [perform];
    try (unfold_operation; unfold outcome, bind;
         rewrite (validatePath_run env w c _ Hc),
                 (makeRequest_run env w c _ _ Hc);
         destruct (ToString_opt (authToken c)); eexists; reflexivity).
  - destruct (readFile_reshapes env w c r Hc) as (inner & _ & ->).
    eexists. reflexivity.
  - now elim (Hop r).
Qed.

(** X7. Whatever an operation returns is a well-formed envelope: a success
    carries data and no error; a failure carries no data and an error
    message that starts with [HTTP ] or with [Network error: ].  On an
    initialised client every operation other than [listDirectory] does
    return: it never throws. *)
Theorem perform_envelope_well_formed env w op :
  (forall envelope,
     outcome (perform op) env w = Ok envelope -> well_formed envelope) /\
  (forall c, config w = Some c -> (forall r, op <> OpListDirectory r) ->
     exists envelope,
       outcome (perform op) env w = Ok envelope /\ well_formed envelope).
Proof.
  split; [apply perform_well_formed|].
  intros c Hc Hop.
  destruct (perform_returns env w c op Hc Hop) as (envelope & He).
  exists envelope. split; [exact He|].
  exact (perform_well_formed env w op envelope He).
Qed.

Lemma perform_envelope_witness :
  exists envelope,
    outcome (perform (OpGetFileInfo {| GetFileInfoRequest.path := "/nope" |}))
            one_file_env ready = Ok envelope /\
    well_formed envelope.
Proof.
  apply (proj2 (perform_envelope_well_formed one_file_env ready
                  (OpGetFileInfo {| GetFileInfoRequest.path := "/nope" |}))
           base_client eq_refl).
  intros r. discriminate.
Defined.

(** ** Logging in *)

Lemma truthy_ostr_some o :
  truthy_ostr o = true -> exists s, o = Some s /\ truthy_str s = true.
Proof.
  destruct o as [s|]; [|discriminate]. intros H. now exists s.
Qed.

(** [init] when it logs in: the loaded configuration is stored and
    [authenticate] runs on it. *)
Lemma init_login_run env w server base user pass :
  needs_login (getConfig env) server base user pass ->
  HttpClient.init env w =
    let token := token_request (getConfig env) user pass in
    let c := loaded (getConfig env) server base in
    let failed message :=
      (@Throw unit (ErrorObj ("Authentication failed: " ++ message)),
       {| config := Some c; wire := (wire w ++ [token])%list |}) in
    match transport env (wire w) token with
    | Rejected e => failed (error_message e)
    | Resolved r =>
        if ok r then
          match json_body r with
          | Throw e => failed (error_message e)
          | Ok tokenData =>
              match get_prop tokenData "access_token" with
              | Throw e => failed (error_message e)
              | Ok tok =>
                  (Ok tt, {| config := Some (with_token c tok);
                             wire := (wire w ++ [token])%list |})
              end
          end
        else
          match text r with
          | Throw e => failed (error_message e)
          | Ok errorText =>
              failed ("Keycloak authentication failed: "
                      ++ string_of_N (status r) ++ " " ++ statusText r
                      ++ " - " ++ errorText)
          end
    end.
Proof.
  intros Hlogin.
  rewrite (init_run env w server base
             (needs_login_complete _ _ _ _ _ Hlogin)).
  rewrite (needs_login_wants _ _ _ _ _ Hlogin).
  destruct Hlogin as [_ _ _ _ _ Hu Hut Hp Hpt].
  rewrite (authenticate_run env
             {| config := Some (loaded (getConfig env) server base); wire := wire w |}
             (loaded (getConfig env) server base) user pass
             eq_refl Hu Hp Hut Hpt).
  reflexivity.
Qed.

(** X2. When the identity provider answers the token request with a 2xx
    JSON object whose [access_token] is a string, [init] succeeds and
    stores that string as the client's token, and every operation
    performed afterwards sends exactly one request, whose [Authorization]
    header is [Bearer ] followed by that string. *)
Theorem login_token_becomes_bearer env w server base user pass r fields token :
  needs_login (getConfig env) server base user pass ->
  transport env (wire w) (token_request (getConfig env) user pass) = Resolved r ->
  (200 <= status r <= 299)%N ->
  json_body r = Ok (JObj fields) ->
  lookup "access_token" fields = Some (JStr token) ->
  outcome HttpClient.init env w = Ok tt /\
  config (after HttpClient.init env w) =
    Some (with_token (loaded (getConfig env) server base) (Some (JStr token))) /\
  (forall op, exists req,
     wire (after (perform op) env (after HttpClient.init env w)) =
       (wire w ++ [token_request (getConfig env) user pass; req])%list /\
     header "Authorization" (headers req) = Some ("Bearer " ++ token)).
Proof.
  intros Hlogin Hr Hok Hj Ht. unfold outcome, after.
  rewrite (init_login_run env w server base user pass Hlogin). cbv zeta.
  rewrite Hr, (proj2 (ok_true_iff r) Hok), Hj. cbn [get_prop]. rewrite Ht.
  cbn [fst snd config].
  repeat split. intros op.
  exists (outbound (with_token (loaded (getConfig env) server base)
                      (Some (JStr token))) token op).
  pose proof (perform_sends env
    {| config := Some (with_token (loaded (getConfig env) server base)
                         (Some (JStr token)));
       wire := (wire w ++ [token_request (getConfig env) user pass])%list |}
    _ op token eq_refl eq_refl) as Hsent.
  unfold after in Hsent. rewrite Hsent. cbn [sent wire].
  rewrite <- app_assoc. split; reflexivity.
Qed.

Lemma login_token_becomes_bearer_witness :
  exists req,
    wire (after (perform (OpGetFileInfo {| GetFileInfoRequest.path := "/a" |}))
                (env_with password_config (Resolved not_found))
                (after HttpClient.init
                       (env_with password_config (Resolved not_found)) fresh)) =
      ([] ++ [token_request password_config "alice" "secret"; req])%list /\
    header "Authorization" (headers req) = Some ("Bearer " ++ "jwt").
Proof.
  refine (proj2 (proj2
    (login_token_becomes_bearer (env_with password_config (Resolved not_found)) fresh
       "http://srv" "/base" "alice" "secret"
       (json_response (JObj [("access_token", JStr "jwt")]))
       [("access_token", JStr "jwt")] "jwt"
       _ eq_refl _ eq_refl eq_refl))
    (OpGetFileInfo {| GetFileInfoRequest.path := "/a" |})).
  - constructor; reflexivity.
  - vm_compute. split; discriminate.
Defined.

(** X3. An [access_token] is not checked: when the 2xx answer of the
    identity provider is an object without one, [init] still succeeds, and
    the requests that follow carry the header [Authorization: Bearer
    undefined]. *)
Theorem login_without_access_token env w server base user pass r fields :
  needs_login (getConfig env) server base user pass ->
  transport env (wire w) (token_request (getConfig env) user pass) = Resolved r ->
  (200 <= status r <= 299)%N ->
  json_body r = Ok (JObj fields) ->
  lookup "access_token" fields = None ->
  outcome HttpClient.init env w = Ok tt /\
  (forall op, exists req,
     wire (after (perform op) env (after HttpClient.init env w)) =
       (wire w ++ [token_request (getConfig env) user pass; req])%list /\
     header "Authorization" (headers req) = Some "Bearer undefined").
Proof.
  intros Hlogin Hr Hok Hj Ht. unfold outcome, after.
  rewrite (init_login_run env w server base user pass Hlogin). cbv zeta.
  rewrite Hr, (proj2 (ok_true_iff r) Hok), Hj. cbn [get_prop]. rewrite Ht.
  cbn [fst snd]. split; [reflexivity|]. intros op.
  exists (outbound (with_token (loaded (getConfig env) server base) None)
            "undefined" op).
  pose proof (perform_sends env
    {| config := Some (with_token (loaded (getConfig env) server base) None);
       wire := (wire w ++ [token_request (getConfig env) user pass])%list |}
    _ op "undefined" eq_refl eq_refl) as Hsent.
  unfold after in Hsent. rewrite Hsent. cbn [sent wire].
  rewrite <- app_assoc. split; reflexivity.
Qed.

Lemma login_without_access_token_witness :
  outcome HttpClient.init
          (const_env password_config (Resolved (json_response (JObj [])))) fresh
    = Ok tt.
Proof.
  refine (proj1
    (login_without_access_token
       (const_env password_config (Resolved (json_response (JObj [])))) fresh
       "http://srv" "/base" "alice" "secret" (json_response (JObj [])) []
       _ eq_refl _ eq_refl eq_refl)).
  - constructor; reflexivity.
  - vm_compute. split; discriminate.
Defined.

(** X4. When logging in fails, [init] throws an [Authentication failed]
    error that names the cause: the message of the rejected fetch, the
    status, status text and body of a non-2xx answer, or the parse error of
    a 2xx answer.  The client keeps the loaded configuration, with the
    empty token. *)
Theorem login_failure_reported env w server base user pass :
  needs_login (getConfig env) server base user pass ->
  let answer := transport env (wire w) (token_request (getConfig env) user pass) in
  (forall e, answer = Rejected e ->
     outcome HttpClient.init env w =
       Throw (ErrorObj ("Authentication failed: " ++ error_message e))) /\
  (forall r errorText,
     answer = Resolved r -> (status r < 200 \/ 299 < status r)%N ->
     text r = Ok errorText ->
     outcome HttpClient.init env w =
       Throw (ErrorObj ("Authentication failed: Keycloak authentication failed: "
                        ++ string_of_N (status r) ++ " " ++ statusText r
                        ++ " - " ++ errorText))) /\
  (forall r e,
     answer = Resolved r -> (200 <= status r <= 299)%N -> json_body r = Throw e ->
     outcome HttpClient.init env w =
       Throw (ErrorObj ("Authentication failed: " ++ error_message e))) /\
  (outcome HttpClient.init env w <> Ok tt ->
     config (after HttpClient.init env w) =
       Some (loaded (getConfig env) server base) /\
     authToken (loaded (getConfig env) server base) = Some (JStr EmptyString)).
Proof.
  intros Hlogin answer. unfold outcome, after.
  rewrite (init_login_run env w server base user pass Hlogin). cbv zeta.
  fold answer. split; [|split; [|split]].
  - intros e ->. reflexivity.
  - intros r t -> Hs Ht. now rewrite (proj2 (ok_false_iff r) Hs), Ht.
  - intros r e -> Hs Hj. now rewrite (proj2 (ok_true_iff r) Hs), Hj.
  - intros Hfailed. split.
    + destruct answer as [e|r]; [reflexivity|].
      destruct (ok r).
      * destruct (json_body r) as [tokenData|e]; [|reflexivity].
        destruct (get_prop tokenData "access_token"); [|reflexivity].
        now elim Hfailed.
      * now destruct (text r).
    + unfold loaded. cbn [authToken].
      now rewrite (or_str_falsy _ (nl_token _ _ _ _ _ Hlogin)).
Qed.

Lemma login_failure_reported_witness :
  outcome HttpClient.init
    (const_env password_config
       (Resolved {| status := 401; statusText := "Unauthorized";
                    text := Ok "bad credentials";
                    json_body := Ok JNull |})) fresh =
    Throw (ErrorObj ("Authentication failed: Keycloak authentication failed: "
                     ++ string_of_N 401 ++ " " ++ "Unauthorized"
                     ++ " - " ++ "bad credentials")).
Proof.
  refine (proj1 (proj2
    (login_failure_reported
       (const_env password_config
          (Resolved {| status := 401; statusText := "Unauthorized";
                       text := Ok "bad credentials"; json_body := Ok JNull |}))
       fresh "http://srv" "/base" "alice" "secret" _))
    _ "bad credentials" eq_refl _ eq_refl).
  - constructor; reflexivity.
  - right. reflexivity.
Defined.

Lemma complete_or_not sc :
  (exists server base, complete sc server base) \/
  (truthy_ostr (sc_serverUrl sc) = false \/ truthy_ostr (sc_basePath sc) = false).
Proof.
  destruct (truthy_ostr (sc_serverUrl sc)) eqn:Hs; [|now right; left].
  destruct (truthy_ostr (sc_basePath sc)) eqn:Hb; [|now right; right].
  destruct (truthy_ostr_some _ Hs) as (server & Hs1 & Hs2).
  destruct (truthy_ostr_some _ Hb) as (base & Hb1 & Hb2).
  left. exists server, base. now constructor.
Qed.

Lemma wants_login_needs sc server base :
  complete sc server base -> wants_login sc = true ->
  exists user pass, needs_login sc server base user pass.
Proof.
  intros [Hs Hst Hb Hbt]. unfold wants_login.
  rewrite !andb_true_iff, negb_true_iff. intros [[Ht Hu] Hp].
  destruct (truthy_ostr_some _ Hu) as (user & Hu1 & Hu2).
  destruct (truthy_ostr_some _ Hp) as (pass & Hp1 & Hp2).
  exists user, pass. now constructor.
Qed.

(** X9. [init] can fail in two ways only: with the configuration error,
    or with an error whose message starts with [Authentication failed: ].
    The guard of [authenticate] (user name and password required) is never
    what a caller of [init] sees. *)
Theorem init_errors env w e :
  outcome HttpClient.init env w = Throw e ->
  e = HttpClient.incomplete \/
  exists cause, e = ErrorObj ("Authentication failed: " ++ cause).
Proof.
  destruct (complete_or_not (getConfig env)) as [(server & base & Hc)|Hmissing].
  2:{ unfold outcome. rewrite (init_incomplete env w Hmissing). cbn.
      intros H. injection H as <-. now left. }
  destruct (wants_login (getConfig env)) eqn:Hwants.
  - destruct (wants_login_needs _ _ _ Hc Hwants) as (user & pass & Hlogin).
    unfold outcome. rewrite (init_login_run env w server base user pass Hlogin).
    cbv zeta. intros H. right.
    destruct (transport env (wire w) _) as [e'|r].
    { injection H as <-. eexists. reflexivity. }
    destruct (ok r).
    + destruct (json_body r) as [tokenData|e'].
      * destruct (get_prop tokenData "access_token"); [discriminate|].
        injection H as <-. eexists. reflexivity.
      * injection H as <-. eexists. reflexivity.
    + destruct (text r); injection H as <-; eexists; reflexivity.
  - unfold outcome. rewrite (init_run env w server base Hc), Hwants. discriminate.
Qed.

Lemma init_errors_witness :
  outcome HttpClient.init (const_env incomplete_config (Resolved not_found)) fresh
    = Throw HttpClient.incomplete /\
  (HttpClient.incomplete = HttpClient.incomplete \/
   exists cause, HttpClient.incomplete = ErrorObj ("Authentication failed: " ++ cause)).
Proof.
  split; [reflexivity|].
  exact (init_errors (const_env incomplete_config (Resolved not_found)) fresh
           HttpClient.incomplete eq_refl).
Defined.

(** ** The facade *)

Lemma outcome_bind {A B : Type} (m : M A) (k : A -> M B) env w :
  outcome (x <- m ;; k x) env w =
    match outcome m env w with
    | Ok a => outcome (k a) env (after m env w)
    | Throw e => Throw e
    end.
Proof.
  unfold after, outcome, bind. now destruct (m env w) as [[a|e] w'].
Qed.

(** Every facade call is [init], then its client operation, then the
    unwrapping of the envelope. *)
Lemma invoke_run env w call :
  invoke call env w =
    (HttpClient.init ;;
     response <- perform (op_of_call call) ;;
     unwrap (fallback_message call) (fun _ => tt) response) env w.
Proof.
  destruct call; cbn [invoke op_of_call fallback_message perform];
    unfold Filesystem.readFileFromDisk, Filesystem.writeFile,
      Filesystem.createDirectory, Filesystem.listDirectory,
      Filesystem.searchFiles, Filesystem.getFileInfo, Filesystem.searchCode,
      Filesystem.editBlock, unwrap, bind;
    destruct (HttpClient.init env w) as [[[]|e] w1]; try reflexivity;
    match goal with
    | |- context [match ?m env w1 with _ => _ end] =>
        destruct (m env w1) as [[response|e] w2]; try reflexivity
    end;
    destruct (success response); reflexivity.
Qed.

(** X10. A facade call whose [init] fails throws the error of [init] and
    does nothing more: no API request is sent.  With an incomplete
    configuration every facade function therefore throws the configuration
    error and leaves client and wire untouched. *)
Theorem invoke_aborts_when_init_fails env w call :
  (forall e, outcome HttpClient.init env w = Throw e ->
     outcome (invoke call) env w = Throw e /\
     after (invoke call) env w = after HttpClient.init env w) /\
  (truthy_ostr (sc_serverUrl (getConfig env)) = false \/
   truthy_ostr (sc_basePath (getConfig env)) = false ->
     invoke call env w = (Throw HttpClient.incomplete, w)).
Proof.
  split.
  - intros e He. unfold outcome, after in *. rewrite invoke_run. unfold bind.
    destruct (HttpClient.init env w) as [[[]|e'] w1]; cbn in He |- *;
      [discriminate|]. injection He as ->. now split.
  - intros Hmissing. rewrite invoke_run. unfold bind.
    now rewrite (init_incomplete env w Hmissing).
Qed.

Lemma invoke_aborts_witness :
  invoke (CallWriteFile "/a" "hello" rewrite_mode)
         (const_env incomplete_config (Resolved not_found)) fresh =
    (Throw HttpClient.incomplete, fresh).
Proof.
  apply (proj2 (invoke_aborts_when_init_fails
                  (const_env incomplete_config (Resolved not_found)) fresh
                  (CallWriteFile "/a" "hello" rewrite_mode))).
  right. reflexivity.
Defined.

Lemma unwrap_after {A : Type} fallback (value : ApiResponse -> A) response env w :
  after (unwrap fallback value response) env w = w.
Proof. unfold unwrap. now destruct (success response). Qed.

(** The result of a facade function, from the results of its two steps. *)
Lemma facade_result {A : Type} env w op fallback (value : ApiResponse -> A) envelope :
  outcome HttpClient.init env w = Ok tt ->
  outcome (perform op) env (after HttpClient.init env w) = Ok envelope ->
  outcome (HttpClient.init ;; response <- perform op ;;
           unwrap fallback value response) env w =
    if success envelope then Ok (value envelope)
    else Throw (ErrorObj (or_str (error envelope) fallback)).
Proof.
  intros Hi Hp. rewrite outcome_bind, Hi, outcome_bind, Hp.
  unfold unwrap. now destruct (success envelope).
Qed.

Lemma facade_after {A : Type} env w op fallback (value : ApiResponse -> A) :
  after (HttpClient.init ;; response <- perform op ;;
         unwrap fallback value response) env w =
    match outcome HttpClient.init env w with
    | Ok _ => after (perform op) env (after HttpClient.init env w)
    | Throw _ => after HttpClient.init env w
    end.
Proof.
  rewrite after_bind. destruct (outcome HttpClient.init env w); [|reflexivity].
  rewrite after_bind.
  destruct (outcome (perform op) env (after HttpClient.init env w));
    [apply unwrap_after|reflexivity].
Qed.

(** X11. Each of the eight facade functions that call the server
    ([readFileFromDisk], [writeFile], [createDirectory], [listDirectory],
    [searchFiles], [getFileInfo], [searchCode], [editBlock]) initialises
    the client on its way: with a complete configuration, and whatever else
    happens during the call, the client afterwards holds a configuration
    with the configured [serverUrl] and [basePath]. *)
Theorem invoke_initializes env w call server base :
  complete (getConfig env) server base ->
  exists c,
    config (after (invoke call) env w) = Some c /\
    serverUrl c = server /\ basePath c = base.
Proof.
  intros [Hs Hst Hb Hbt].
  destruct (init_complete env w server base Hs Hst Hb Hbt) as (c & Hc & Hcs & Hcb & _).
  exists c. split; [|now split].
  unfold after at 1. rewrite invoke_run.
  change (config (after (HttpClient.init ;;
                         response <- perform (op_of_call call) ;;
                         unwrap (fallback_message call) (fun _ => tt) response)
                        env w) = Some c).
  rewrite facade_after.
  destruct (outcome HttpClient.init env w); [|exact Hc].
  now rewrite perform_config.
Qed.

Lemma invoke_initializes_witness :
  exists c,
    config (after (invoke (CallGetFileInfo "/a")) one_file_env fresh) = Some c /\
    serverUrl c = "http://srv" /\ basePath c = "/base".
Proof.
  apply (invoke_initializes one_file_env fresh (CallGetFileInfo "/a")
           "http://srv" "/base").
  constructor; reflexivity.
Defined.

Lemma prefixed_not_fallback call message :
  startsWith message "HTTP " = true \/ startsWith message "Network error: " = true ->
  message <> fallback_message call /\ truthy_str message = true.
Proof.
  intros H. split.
  - intros ->. destruct call; cbn in H; destruct H; discriminate.
  - destruct message; [|reflexivity]. destruct H; discriminate.
Qed.

(** X12. After a successful [init], a facade call returns when its
    operation's envelope is a success, throws an [Error] with the
    envelope's own message when it is a failure (the per-function fallback
    message is not what is thrown), and lets an exception of the operation
    through. *)
Theorem invoke_reports_envelope env w call :
  outcome HttpClient.init env w = Ok tt ->
  (forall envelope,
     outcome (perform (op_of_call call)) env (after HttpClient.init env w)
       = Ok envelope ->
     (success envelope = true -> outcome (invoke call) env w = Ok tt) /\
     (success envelope = false ->
        exists message,
          error envelope = Some message /\
          outcome (invoke call) env w = Throw (ErrorObj message) /\
          message <> fallback_message call)) /\
  (forall e,
     outcome (perform (op_of_call call)) env (after HttpClient.init env w) = Throw e ->
     outcome (invoke call) env w = Throw e).
Proof.
  intros Hi. split.
  - intros envelope Hp.
    pose proof (facade_result env w (op_of_call call) (fallback_message call)
                  (fun _ => tt) envelope Hi Hp) as Hr.
    unfold outcome at 1 in Hr. rewrite <- invoke_run in Hr.
    fold (outcome (invoke call) env w) in Hr. rewrite Hr. split.
    + now intros ->.
    + intros Hs. rewrite Hs.
      destruct (perform_well_formed env _ _ _ Hp)
        as [(Ht & _)|(_ & _ & message & Hm & Hpre)]; [congruence|].
      destruct (prefixed_not_fallback call message Hpre) as [Hne Htruthy].
      exists message. rewrite Hm. cbn [or_str]. rewrite Htruthy. now repeat split.
  - intros e Hp. unfold outcome at 1. rewrite invoke_run.
    fold (outcome (HttpClient.init ;;
                   response <- perform (op_of_call call) ;;
                   unwrap (fallback_message call) (fun _ => tt) response) env w).
    now rewrite outcome_bind, Hi, outcome_bind, Hp.
Qed.

Lemma invoke_reports_envelope_witness :
  exists message,
    error (http_failure not_found) = Some message /\
    outcome (invoke (CallGetFileInfo "/nope")) one_file_env fresh
      = Throw (ErrorObj message) /\
    message <> fallback_message (CallGetFileInfo "/nope").
Proof.
  exact (proj2 (proj1 (invoke_reports_envelope one_file_env fresh
                         (CallGetFileInfo "/nope") eq_refl)
                 (http_failure not_found) eq_refl) eq_refl).
Defined.

(** ** What the facade returns *)

Lemma perform_plain env w c op bearer :
  config w = Some c ->
  ToString_opt (authToken c) = Ok bearer ->
  plain op ->
  outcome (perform op) env w =
    Ok (classify (transport env (wire w) (outbound c bearer op))).
Proof.
  intros Hc Hb Hop.
  destruct op as [r|r|r|r|r|r|r|r]; try contradiction; cbn [perform];
    unfold_operation; unfold outcome, bind, outbound;
    cbn [endpoint_name normalized_op request_json];
    rewrite (validatePath_run env w c _ Hc), (makeRequest_run env w c _ _ Hc), Hb;
    reflexivity.
Qed.

Ltac through_facade Hi Hc Hb Ht Hok Hj :=
  match goal with
  | |- outcome (HttpClient.init ;; response <- perform ?op ;;
                unwrap ?fallback ?value response) ?env ?w = _ =>
      rewrite (facade_result env w op fallback value _ Hi
                 (eq_trans (perform_plain env _ _ op _ Hc Hb I)
                           (f_equal (fun o => Ok (classify o)) (Ht _))));
      cbn [classify]; rewrite Hok, Hj; reflexivity
  end.

(** X13. The HTTP status alone decides between success and failure.  When
    the server answers 2xx with a JSON body, [writeFile] and
    [createDirectory] succeed whatever that body says, [getFileInfo],
    [searchCode] and [editBlock] return the body as it is, and
    [searchFiles] returns it unless it is falsy, in which case it returns
    the empty array. *)
Theorem facade_trusts_status env w c bearer r body :
  outcome HttpClient.init env w = Ok tt ->
  config (after HttpClient.init env w) = Some c ->
  ToString_opt (authToken c) = Ok bearer ->
  (forall req, transport env (wire (after HttpClient.init env w)) req = Resolved r) ->
  (200 <= status r <= 299)%N ->
  json_body r = Ok body ->
  (forall p content mode,
     outcome (Filesystem.writeFile p content mode) env w = Ok tt) /\
  (forall p, outcome (Filesystem.createDirectory p) env w = Ok tt) /\
  (forall p, outcome (Filesystem.getFileInfo p) env w = Ok (Some body)) /\
  (forall p pattern options,
     outcome (Filesystem.searchCode p pattern options) env w = Ok (Some body)) /\
  (forall p oldString newString n,
     outcome (Filesystem.editBlock p oldString newString n) env w = Ok (Some body)) /\
  (forall p pattern timeoutMs,
     outcome (Filesystem.searchFiles p pattern timeoutMs) env w =
       Ok (if truthy body then body else JArr [])).
Proof.
  intros Hi Hc Hb Ht Hs Hj.
  pose proof (proj2 (ok_true_iff r) Hs) as Hok.
  repeat split; intros.
  - change (outcome (HttpClient.init ;;
                     response <- perform (OpWriteFile
                         {| FileWriteRequest.path := p;
                            FileWriteRequest.content := content;
                            FileWriteRequest.mode := Some mode |}) ;;
                     unwrap "Failed to write file" (fun _ => tt) response) env w
            = Ok tt).
    through_facade Hi Hc Hb Ht Hok Hj.
  - change (outcome (HttpClient.init ;;
                     response <- perform (OpCreateDirectory
                         {| CreateDirectoryRequest.path := p |}) ;;
                     unwrap "Failed to create directory" (fun _ => tt) response) env w
            = Ok tt).
    through_facade Hi Hc Hb Ht Hok Hj.
  - change (outcome (HttpClient.init ;;
                     response <- perform (OpGetFileInfo
                         {| GetFileInfoRequest.path := p |}) ;;
                     unwrap "Failed to get file info" data response) env w
            = Ok (Some body)).
    through_facade Hi Hc Hb Ht Hok Hj.
  - change (outcome (HttpClient.init ;;
                     response <- perform (op_of_call (CallSearchCode p pattern options)) ;;
                     unwrap "Failed to search code" data response) env w
            = Ok (Some body)).
    through_facade Hi Hc Hb Ht Hok Hj.
  - change (outcome (HttpClient.init ;;
                     response <- perform (op_of_call
                                            (CallEditBlock p oldString newString n)) ;;
                     unwrap "Failed to edit block" data response) env w
            = Ok (Some body)).
    through_facade Hi Hc Hb Ht Hok Hj.
  - change (outcome (HttpClient.init ;;
                     response <- perform (op_of_call
                                            (CallSearchFiles p pattern timeoutMs)) ;;
                     unwrap "Failed to search files"
                            (fun response => Filesystem.data_or response (JArr []))
                            response) env w
            = Ok (if truthy body then body else JArr [])).
    through_facade Hi Hc Hb Ht Hok Hj.
Qed.

Lemma facade_trusts_status_witness :
  outcome (Filesystem.writeFile "/a" "hello" rewrite_mode)
          (const_env token_config
             (Resolved (json_response
                (JObj [("success", JBool false); ("error", JStr "disk full")]))))
          fresh = Ok tt.
Proof.
  refine (proj1
    (facade_trusts_status
       (const_env token_config
          (Resolved (json_response
             (JObj [("success", JBool false); ("error", JStr "disk full")]))))
       fresh base_client "tok"
       (json_response (JObj [("success", JBool false); ("error", JStr "disk full")]))
       (JObj [("success", JBool false); ("error", JStr "disk full")])
       eq_refl eq_refl eq_refl (fun _ => eq_refl) _ eq_refl)
    "/a" "hello" rewrite_mode).
  vm_compute. split; discriminate.
Defined.

Lemma perform_read env w c request bearer :
  config w = Some c ->
  ToString_opt (authToken c) = Ok bearer ->
  outcome (perform (OpReadFile request)) env w =
    Ok (let response :=
          classify (transport env (wire w) (outbound c bearer (OpReadFile request))) in
        if negb (success response) then response
        else {| success := true;
                data := or_opt (get_prop_opt (data response) "data") (data response);
                error := None |}).
Proof.
  intros Hc Hb. cbn [perform]. unfold outcome.
  now rewrite (readFile_run env w c request bearer Hc Hb).
Qed.

(** X14. Reading a file gives the same content for the flat and for the
    nested shape of the answer: a 2xx body that is a string is the content,
    a body [{data: s}] with a non-empty string [s] has content [s], and a
    falsy body (null, false, 0) reads as the empty string.  The result is
    always typed [text/plain] and never an image, and [readFileInternal]
    returns just the content. *)
Theorem read_content env w c bearer r body :
  outcome HttpClient.init env w = Ok tt ->
  config (after HttpClient.init env w) = Some c ->
  ToString_opt (authToken c) = Ok bearer ->
  (forall req, transport env (wire (after HttpClient.init env w)) req = Resolved r) ->
  (200 <= status r <= 299)%N ->
  json_body r = Ok body ->
  forall s,
    (body = JStr s \/
     (exists fields, body = JObj fields /\ lookup "data" fields = Some (JStr s)
                     /\ s <> EmptyString) \/
     (truthy body = false /\ s = EmptyString)) ->
    forall filePath offset length,
      outcome (Filesystem.readFile filePath false offset length) env w =
        Ok {| Filesystem.content := JStr s;
              Filesystem.mimeType := "text/plain";
              Filesystem.isImage := false |} /\
      outcome (Filesystem.readFileInternal filePath offset length) env w = Ok (JStr s).
Proof.
  intros Hi Hc Hb Ht Hs Hj s Hbody filePath offset length.
  pose proof (proj2 (ok_true_iff r) Hs) as Hok.
  assert (Hread :
    outcome (Filesystem.readFile filePath false offset length) env w =
      Ok {| Filesystem.content := JStr s;
            Filesystem.mimeType := "text/plain";
            Filesystem.isImage := false |}).
  { match goal with
    | |- _ = ?expected =>
        change (outcome (HttpClient.init ;;
                         response <- perform (OpReadFile
                             {| FileReadRequest.path := filePath;
                                FileReadRequest.offset := Some offset;
                                FileReadRequest.length := Some length;
                                FileReadRequest.isUrl := None |}) ;;
                         unwrap "Failed to read file"
                           (fun response =>
                              {| Filesystem.content :=
                                   Filesystem.data_or response (JStr EmptyString);
                                 Filesystem.mimeType := "text/plain";
                                 Filesystem.isImage := false |}) response) env w
                = expected)
    end.
    rewrite (facade_result env w _ _ _ _ Hi (perform_read env _ c _ bearer Hc Hb)).
    cbv zeta. rewrite Ht. cbn [classify]. rewrite Hok, Hj.
    cbn [success_with success data negb]. f_equal. f_equal.
    unfold Filesystem.data_or, or_opt. cbn [data].
    destruct Hbody as [->|[(fields & -> & Hd & Hne)|[Hf ->]]].
    - cbn. now destruct s.
    - cbn [get_prop_opt]. rewrite Hd. cbn [truthy_opt truthy].
      rewrite (proj2 (truthy_str_iff s) Hne). cbn [truthy].
      now rewrite (proj2 (truthy_str_iff s) Hne).
    - destruct body as [|b|n|s'|items|fields]; cbn in Hf |- *;
        try discriminate; try reflexivity; now rewrite Hf. }
  split; [exact Hread|].
  unfold Filesystem.readFileInternal. rewrite outcome_bind, Hread. reflexivity.
Qed.

Lemma read_content_witness :
  outcome (Filesystem.readFile "/a" false 0 1000)
          (const_env token_config (Resolved (json_response (JStr "hello")))) fresh =
    Ok {| Filesystem.content := JStr "hello";
          Filesystem.mimeType := "text/plain";
          Filesystem.isImage := false |} /\
  outcome (Filesystem.readFileInternal "/a" 0 1000)
          (const_env token_config (Resolved (json_response (JStr "hello")))) fresh =
    Ok (JStr "hello").
Proof.
  refine (read_content
            (const_env token_config (Resolved (json_response (JStr "hello"))))
            fresh base_client "tok" (json_response (JStr "hello")) (JStr "hello")
            eq_refl eq_refl eq_refl (fun _ => eq_refl) _ eq_refl
            "hello" (or_introl eq_refl) "/a" 0%Z 1000%Z).
  vm_compute. split; discriminate.
Defined.

(** ** Listings that are not listings *)

Lemma listDirectory_run env w c request bearer :
  config w = Some c ->
  ToString_opt (authToken c) = Ok bearer ->
  outcome (HttpClient.listDirectory request) env w =
    let response :=
      classify (transport env (wire w) (outbound c bearer (OpListDirectory request))) in
    if negb (success response) then Ok response
    else
      match or_opt (or_opt (get_prop_opt (data response) "data") (data response))
                   (Some (JArr [])) with
      | Some (JArr entries) =>
          match HttpClient.map_items HttpClient.item_name entries with
          | Ok itemNames => Ok (success_with (JArr (map JStr itemNames)))
          | Throw e => Throw e
          end
      | _ => Throw (ErrorObj "items.map is not a function")
      end.
Proof.
  intros Hc Hb. unfold outcome, HttpClient.listDirectory, bind, outbound.
  cbn [endpoint_name normalized_op request_json].
  rewrite (validatePath_run env w c _ Hc), (makeRequest_run env w c _ _ Hc), Hb.
  cbv beta iota zeta.
  destruct (negb (success (classify _))); [reflexivity|].
  unfold lift, ret, throw. by_cases.
Qed.

Lemma map_items_null entries :
  In JNull entries ->
  exists e, HttpClient.map_items HttpClient.item_name entries = Throw e.
Proof.
  induction entries as [|item rest IH]; [contradiction|].
  intros [->|Hin]; cbn [HttpClient.map_items].
  - eexists. reflexivity.
  - destruct (HttpClient.item_name item); [|eexists; reflexivity].
    destruct (IH Hin) as (e & ->). eexists. reflexivity.
Qed.

(** X15. [listDirectory] on a 2xx answer: a falsy body (null, false, 0,
    the empty string) is an empty listing; a body that is an object without
    [data], or an array with a null entry in it, makes [listDirectory]
    throw instead of returning a failure envelope; and whenever it does
    return, the data is an array of strings. *)
Theorem listDirectory_edges env w c request bearer r body :
  config w = Some c ->
  ToString_opt (authToken c) = Ok bearer ->
  transport env (wire w) (outbound c bearer (OpListDirectory request)) = Resolved r ->
  (200 <= status r <= 299)%N ->
  json_body r = Ok body ->
  (truthy body = false ->
     outcome (HttpClient.listDirectory request) env w = Ok (success_with (JArr []))) /\
  (forall fields, body = JObj fields -> lookup "data" fields = None ->
     exists e, outcome (HttpClient.listDirectory request) env w = Throw e) /\
  (forall entries, body = JArr entries -> In JNull entries ->
     exists e, outcome (HttpClient.listDirectory request) env w = Throw e) /\
  (forall envelope,
     outcome (HttpClient.listDirectory request) env w = Ok envelope ->
     exists names, envelope = success_with (JArr (map JStr names))).
Proof.
  intros Hc Hb Hr Hs Hj.
  rewrite (listDirectory_run env w c request bearer Hc Hb). cbv zeta.
  rewrite Hr. cbn [classify]. rewrite (proj2 (ok_true_iff r) Hs), Hj.
  cbn [success_with success data negb]. split; [|split; [|split]].
  - intros Hf. unfold or_opt.
    destruct body as [|b|n|s|items|fields]; cbn in Hf |- *;
      try discriminate; try reflexivity; now rewrite Hf.
  - intros fields -> Hd. cbn [get_prop_opt]. rewrite Hd. cbn. eexists. reflexivity.
  - intros entries -> Hin. cbn.
    destruct (map_items_null entries Hin) as (e & ->). eexists. reflexivity.
  - intros envelope.
    destruct (or_opt _ _) as [[| | | |entries|]|]; try discriminate.
    destruct (HttpClient.map_items _ _) as [names|]; [|discriminate].
    intros H. injection H as <-. now exists names.
Qed.

Lemma listDirectory_edges_witness :
  exists e,
    outcome (HttpClient.listDirectory {| DirectoryListRequest.path := "/" |})
            (const_env token_config
               (Resolved (json_response (JObj [("error", JStr "no such directory")]))))
            ready = Throw e.
Proof.
  refine (proj1 (proj2
    (listDirectory_edges
       (const_env token_config
          (Resolved (json_response (JObj [("error", JStr "no such directory")]))))
       ready base_client {| DirectoryListRequest.path := "/" |} "tok"
       (json_response (JObj [("error", JStr "no such directory")]))
       (JObj [("error", JStr "no such directory")])
       eq_refl eq_refl eq_refl _ eq_refl))
    [("error", JStr "no such directory")] eq_refl eq_refl).
  vm_compute. split; discriminate.
Defined.

(** ** Paths *)

Lemma append_assoc (a b c : string) : a ++ b ++ c = (a ++ b) ++ c.
Proof. induction a as [|ch a IH]; cbn; [reflexivity|now rewrite IH]. Qed.

(** X16. [validatePath] only ever puts something in front: the input is
    a suffix of the result, after nothing, [basePath] or [basePath/].  The
    test is on the text alone, so anything that begins with [basePath]
    passes unchanged whatever follows, [..] segments and longer sibling
    names included; and the client is left as it was. *)
Theorem validatePath_only_prepends env w c requestPath :
  config w = Some c ->
  (exists front,
     outcome (HttpClient.validatePath requestPath) env w = Ok (front ++ requestPath) /\
     (front = EmptyString \/ front = basePath c \/ front = basePath c ++ "/")) /\
  (forall rest,
     outcome (HttpClient.validatePath (basePath c ++ rest)) env w
       = Ok (basePath c ++ rest)) /\
  after (HttpClient.validatePath requestPath) env w = w.
Proof.
  intros Hc. unfold outcome, after. split; [|split].
  - rewrite (validatePath_run env w c requestPath Hc). cbn [fst]. unfold normalize.
    destruct (startsWith requestPath (basePath c)).
    + exists EmptyString. split; [reflexivity|now left].
    + destruct (startsWith requestPath "/").
      * exists (basePath c). split; [reflexivity|now right; left].
      * exists (basePath c ++ "/"). split; [|now right; right].
        f_equal. apply append_assoc.
  - intros rest. rewrite (validatePath_run env w c _ Hc). cbn [fst].
    now rewrite (normalize_already _ _ (startsWith_app (basePath c) rest)).
  - now rewrite (validatePath_run env w c requestPath Hc).
Qed.

Lemma validatePath_only_prepends_witness :
  outcome (HttpClient.validatePath ("/base" ++ "/../etc/passwd")) one_file_env ready
    = Ok ("/base" ++ "/../etc/passwd").
Proof.
  exact (proj1 (proj2 (validatePath_only_prepends one_file_env ready base_client
                         "/x" eq_refl)) "/../etc/passwd").
Defined.

(** ** Batches *)

Lemma read_one_total env w filePath :
  exists entry,
    Filesystem.read_one filePath env w =
      (Ok entry, after (Filesystem.readFile filePath false 0 1000) env w).
Proof.
  unfold Filesystem.read_one, try_catch, bind, ret, after.
  destruct (Filesystem.readFile filePath false 0 1000 env w) as [[fr|e] w1];
    eexists; reflexivity.
Qed.

(** The entries the loop adds do not depend on what it had accumulated. *)
Lemma read_loop_uniform env paths :
  forall w, exists results w',
    forall acc, Filesystem.read_loop paths acc env w = (Ok (acc ++ results)%list, w').
Proof.
  induction paths as [|p rest IH]; intros w.
  - exists [], w. intros acc. cbn. now rewrite app_nil_r.
  - destruct (read_one_total env w p) as (entry & Hone).
    destruct (IH (after (Filesystem.readFile p false 0 1000) env w))
      as (results & w' & Hloop).
    exists (entry :: results), w'. intros acc.
    cbn [Filesystem.read_loop]. unfold bind at 1. rewrite Hone, Hloop.
    now rewrite <- app_assoc.
Qed.

Lemma read_loop_app env ps qs :
  forall acc w,
    Filesystem.read_loop (ps ++ qs) acc env w =
      match Filesystem.read_loop ps acc env w with
      | (Ok results, w1) => Filesystem.read_loop qs results env w1
      | (Throw e, w1) => (Throw e, w1)
      end.
Proof.
  induction ps as [|p rest IH]; intros acc w; [reflexivity|].
  cbn [app Filesystem.read_loop]. unfold bind.
  destruct (Filesystem.read_one p env w) as [[entry|e] w1]; [apply IH|reflexivity].
Qed.

(** X17. A batch over [ps ++ qs] is the batch over [ps] followed by the
    batch over [qs] run where the first one stopped: the results are the
    two result lists one after the other, and the final state is that of
    the second batch. *)
Theorem readMultipleFiles_app env w ps qs :
  exists first second,
    outcome (Filesystem.readMultipleFiles ps) env w = Ok first /\
    outcome (Filesystem.readMultipleFiles qs) env
            (after (Filesystem.readMultipleFiles ps) env w) = Ok second /\
    outcome (Filesystem.readMultipleFiles (ps ++ qs)) env w
      = Ok (first ++ second)%list /\
    after (Filesystem.readMultipleFiles (ps ++ qs)) env w =
      after (Filesystem.readMultipleFiles qs) env
            (after (Filesystem.readMultipleFiles ps) env w).
Proof.
  unfold Filesystem.readMultipleFiles, outcome, after.
  destruct (read_loop_uniform env ps w) as (first & w1 & Hps).
  destruct (read_loop_uniform env qs w1) as (second & w2 & Hqs).
  exists first, second.
  rewrite read_loop_app, (Hps []). cbn [app fst snd].
  rewrite (Hqs first), (Hqs []). cbn [app fst snd]. now repeat split.
Qed.

(** X18. With an incomplete configuration a batch sends nothing and
    changes nothing: it returns one entry per path, in order, each carrying
    the configuration error as its [error]. *)
Theorem readMultipleFiles_unconfigured env w paths :
  truthy_ostr (sc_serverUrl (getConfig env)) = false \/
  truthy_ostr (sc_basePath (getConfig env)) = false ->
  Filesystem.readMultipleFiles paths env w =
    (Ok (map (fun filePath =>
                failed_entry filePath (error_message HttpClient.incomplete)) paths),
     w).
Proof.
  intros Hmissing. unfold Filesystem.readMultipleFiles.
  assert (Hloop : forall acc,
    Filesystem.read_loop paths acc env w =
      (Ok (acc ++ map (fun filePath =>
                         failed_entry filePath (error_message HttpClient.incomplete))
                     paths)%list, w)).
  { induction paths as [|p rest IH]; intros acc.
    - cbn. now rewrite app_nil_r.
    - cbn [Filesystem.read_loop map]. unfold bind at 1.
      unfold Filesystem.read_one, try_catch, bind at 1,
        Filesystem.readFile, Filesystem.readFileFromDisk, bind at 1.
      rewrite (init_incomplete env w Hmissing). unfold ret.
      rewrite IH, <- app_assoc. reflexivity. }
  exact (Hloop []).
Qed.

Lemma readMultipleFiles_unconfigured_witness :
  Filesystem.readMultipleFiles ["/a"; "/b"]
    (const_env incomplete_config (Resolved not_found)) fresh =
    (Ok [failed_entry "/a" (error_message HttpClient.incomplete);
         failed_entry "/b" (error_message HttpClient.incomplete)], fresh).
Proof.
  apply (readMultipleFiles_unconfigured
           (const_env incomplete_config (Resolved not_found)) fresh ["/a"; "/b"]).
  right. reflexivity.
Defined.

(** With no login to do, the facade's [readFile] sends exactly the read
    request of its path. *)
Lemma readFile_sends env w server base filePath :
  complete (getConfig env) server base ->
  wants_login (getConfig env) = false ->
  after (Filesystem.readFile filePath false 0 1000) env w =
    {| config := Some (loaded (getConfig env) server base);
       wire := (wire w ++ [read_request (loaded (getConfig env) server base)
                             (or_str (sc_authToken (getConfig env)) EmptyString)
                             filePath])%list |}.
Proof.
  intros Hcomplete Hwants.
  change (Filesystem.readFile filePath false 0 1000) with
    (HttpClient.init ;;
     response <- perform (OpReadFile
         {| FileReadRequest.path := filePath;
            FileReadRequest.offset := Some 0%Z;
            FileReadRequest.length := Some 1000%Z;
            FileReadRequest.isUrl := None |}) ;;
     unwrap "Failed to read file"
       (fun response =>
          {| Filesystem.content := Filesystem.data_or response (JStr EmptyString);
             Filesystem.mimeType := "text/plain";
             Filesystem.isImage := false |}) response).
  rewrite facade_after. unfold outcome, after.
  rewrite (init_run env w server base Hcomplete), Hwants. cbn [fst snd].
  pose proof (perform_sends env
    {| config := Some (loaded (getConfig env) server base); wire := wire w |}
    (loaded (getConfig env) server base)
    (OpReadFile {| FileReadRequest.path := filePath;
                   FileReadRequest.offset := Some 0%Z;
                   FileReadRequest.length := Some 1000%Z;
                   FileReadRequest.isUrl := None |})
    (or_str (sc_authToken (getConfig env)) EmptyString) eq_refl eq_refl) as Hsent.
  unfold after in Hsent. rewrite Hsent. reflexivity.
Qed.

(** X19. With a complete configuration and no login to do, a batch puts
    exactly one read request per path on the wire, in the order of the
    paths, each for the normalised path with offset 0 and length 1000, and
    nothing else. *)
Theorem readMultipleFiles_requests env w server base paths :
  complete (getConfig env) server base ->
  wants_login (getConfig env) = false ->
  wire (after (Filesystem.readMultipleFiles paths) env w) =
    (wire w ++ map (read_request (loaded (getConfig env) server base)
                      (or_str (sc_authToken (getConfig env)) EmptyString)) paths)%list /\
  map (transmitted_path "path")
      (map (read_request (loaded (getConfig env) server base)
              (or_str (sc_authToken (getConfig env)) EmptyString)) paths) =
    map (fun filePath => Some (normalize base filePath)) paths.
Proof.
  intros Hcomplete Hwants. split.
  - unfold Filesystem.readMultipleFiles. generalize (@nil Filesystem.MultiFileResult).
    revert w. induction paths as [|p rest IH]; intros w acc.
    + cbn. now rewrite app_nil_r.
    + cbn [Filesystem.read_loop map]. rewrite after_bind.
      destruct (read_one_total env w p) as (entry & Hone).
      assert (Hout : outcome (Filesystem.read_one p) env w = Ok entry)
        by (unfold outcome; now rewrite Hone).
      assert (Haft : after (Filesystem.read_one p) env w =
                     after (Filesystem.readFile p false 0 1000) env w)
        by (unfold after at 1; now rewrite Hone).
      rewrite Hout, Haft, IH,
        (readFile_sends env w server base p Hcomplete Hwants).
      cbn [wire]. now rewrite <- app_assoc.
  - rewrite map_map. apply map_ext. intros p. reflexivity.
Qed.

Lemma readMultipleFiles_requests_witness :
  map (transmitted_path "path")
      (wire (after (Filesystem.readMultipleFiles ["b"; "/base/a"; "/c"])
                   one_file_env fresh)) =
    [Some "/base/b"; Some "/base/a"; Some "/base/c"].
Proof.
  rewrite (proj1 (readMultipleFiles_requests one_file_env fresh "http://srv" "/base"
                    ["b"; "/base/a"; "/c"]
                    (Build_complete token_config "http://srv" "/base"
                       eq_refl eq_refl eq_refl eq_refl)
                    eq_refl)).
  reflexivity.
Defined.

(** ** Sessions without login *)




(** X21. Whenever the facade's [listDirectory] returns, what it returns
    is an array of strings. *)
Theorem facade_listDirectory_strings env w path listing :
  outcome (Filesystem.listDirectory path) env w = Ok listing ->
  exists names, listing = JArr (map JStr names).
Proof.
  change (Filesystem.listDirectory path) with
    (HttpClient.init ;;
     response <- perform (OpListDirectory {| DirectoryListRequest.path := path |}) ;;
     unwrap "Failed to list directory"
            (fun response => Filesystem.data_or response (JArr [])) response).
  rewrite outcome_bind.
  destruct (outcome HttpClient.init env w); [|discriminate].
  rewrite outcome_bind. set (w1 := after HttpClient.init env w).
  destruct (config w1) as [c|] eqn:Hc.
  2:{ unfold outcome at 1. rewrite (perform_unconfigured env w1 _ Hc). discriminate. }
  cbn [perform].
  destruct (listDirectory_reshapes env w1 c
              {| DirectoryListRequest.path := path |} Hc) as (inner & Hwf & ->).
  destruct Hwf as [(Hs & _)|(Hs & _)]; rewrite Hs; cbn [negb].
  - destruct (or_opt _ _) as [[| | | |entries|]|]; try discriminate.
    destruct (HttpClient.map_items _ _) as [names|]; [|discriminate].
    unfold unwrap, outcome, ret. cbn. intros H. injection H as <-. now exists names.
  - unfold unwrap, outcome, Filesystem.fail, throw. rewrite Hs. discriminate.
Qed.

Lemma facade_listDirectory_strings_witness :
  let env := const_env token_config
               (Resolved (json_response
                  (JObj [("data", JArr [JObj [("name", JStr "sub"); ("type", JStr "dir")];
                                        JStr "raw"])]))) in
  outcome (Filesystem.listDirectory "/") env fresh
    = Ok (JArr [JStr "[DIR] sub"; JStr "raw"]) /\
  exists names, JArr [JStr "[DIR] sub"; JStr "raw"] = JArr (map JStr names).
Proof.
  cbv zeta. split; [reflexivity|].
  exact (facade_listDirectory_strings
           (const_env token_config
              (Resolved (json_response
                 (JObj [("data", JArr [JObj [("name", JStr "sub"); ("type", JStr "dir")];
                                       JStr "raw"])]))))
           fresh "/" (JArr [JStr "[DIR] sub"; JStr "raw"]) eq_refl).
Defined.
